(** * scsequtil.fastq: records, embedded tags, the reader and the tag generator

    A shallow embedding of [src/scsequtil/fastq.py] and the properties of
    its specification.

    Python values are modelled as follows.
    - [str] is a list of Unicode code points ([list N]);
    - [bytes] is a list of 8-bit characters ([list ascii]);
    - [int] is [Z];
    - [float] is a parameter of the development (class [PyFloat]): the
      code only prints floats with [str()] and reads them with [float()];
    - a [dict] with [str] keys is a [gmap str _];
    - an exception is a value of [exn], a call that may raise returns a
      [result];
    - an iterator over lines is the list of the lines still to be read. *)

From Stdlib Require Import ZArith NArith QArith List Ascii String Sorting.Sorted Lia.
From Stdlib Require Import DecimalString DecimalPos DecimalZ.
From Stdlib Require Import Rbase R_sqrt Qreals Lra.
From stdpp Require Import base tactics option list gmap strings.

Local Open Scope Z_scope.
Local Open Scope list_scope.

(** ** Exceptions and results *)

Inductive exn : Type :=
  | TypeError
  | ValueError
  | KeyError
  | AttributeError
  | UnicodeEncodeError
  | UnicodeDecodeError
  | NaNConversion. (* the integer conversion of a NaN: no Python exception,
                      the value numpy returns is unspecified *)

Inductive result (A : Type) : Type :=
  | Ok (a : A)
  | Raise (e : exn).
Arguments Ok {A} a.
Arguments Raise {A} e.

(** Sequencing: the first exception raised ends the computation. *)
#[global] Instance result_bind : MBind result := fun A B f x =>
  match x with
  | Ok a => f a
  | Raise e => Raise e
  end.

Definition is_ok {A} (x : result A) : bool :=
  match x with Ok _ => true | Raise _ => false end.

Definition raises {A} (x : result A) : Prop :=
  exists e, x = Raise e.

(** ** Text and bytes *)

Definition str := list N.
Definition bytes := list ascii.

(** Literals: the code points, resp. the bytes, of an ASCII literal. *)
Definition U (s : string) : str := map N_of_ascii (list_ascii_of_string s).
Definition B (s : string) : bytes := list_ascii_of_string s.

Definition code (a : ascii) : N := N_of_ascii a.

Section Sequences.
Context {A : Type} `{EqDecision A}.

(** [s.split(sep)] for a separator of one element: always at least one
    piece. *)
Fixpoint split (sep : A) (l : list A) : list (list A) :=
  match l with
  | [] => [[]]
  | c :: l' =>
      if decide (c = sep) then [] :: split sep l'
      else match split sep l' with
           | [] => [[c]]
           | h :: t => (c :: h) :: t
           end
  end.

(** [sep.join(parts)] *)
Fixpoint join (sep : list A) (parts : list (list A)) : list A :=
  match parts with
  | [] => []
  | [p] => p
  | p :: ps => p ++ sep ++ join sep ps
  end.

(** [l[:-1]] *)
Definition but_last {X} (l : list X) : list X := take (length l - 1)%nat l.

(** [l[1:]] *)
Definition from1 {X} (l : list X) : list X := drop 1 l.

(** [l[start:end]] for integer bounds: a negative bound counts from the
    end, and both are clamped to the sequence. *)
Definition clamp (len i : Z) : Z :=
  if i <? 0 then Z.max (i + len) 0 else Z.min i len.

Definition py_slice {X} (start stop : Z) (l : list X) : list X :=
  let len := Z.of_nat (length l) in
  let lo := clamp len start in
  let hi := clamp len stop in
  if lo <? hi then take (Z.to_nat (hi - lo)) (drop (Z.to_nat lo) l) else [].
End Sequences.

(** ** UTF-8, the codec of [str.encode()] and [bytes.decode()] *)

Local Open Scope N_scope.

Definition byte_of (n : N) : ascii := ascii_of_N n.

Definition is_surrogate (c : N) : bool := (0xD800 <=? c) && (c <=? 0xDFFF).

Definition utf8_encode_char (c : N) : option bytes :=
  if c <? 0x80 then Some [byte_of c]
  else if c <? 0x800 then
    Some [byte_of (0xC0 + c / 64); byte_of (0x80 + c mod 64)]
  else if c <? 0x10000 then
    if is_surrogate c then None
    else Some [byte_of (0xE0 + c / 4096); byte_of (0x80 + (c / 64) mod 64);
               byte_of (0x80 + c mod 64)]
  else if c <? 0x110000 then
    Some [byte_of (0xF0 + c / 262144); byte_of (0x80 + (c / 4096) mod 64);
          byte_of (0x80 + (c / 64) mod 64); byte_of (0x80 + c mod 64)]
  else None.

Fixpoint utf8_encode (s : str) : result bytes :=
  match s with
  | [] => Ok []
  | c :: s' =>
      match utf8_encode_char c with
      | None => Raise UnicodeEncodeError
      | Some bs => rest ← utf8_encode s'; Ok (bs ++ rest)
      end
  end.

Definition is_cont (b : N) : bool := (0x80 <=? b) && (b <=? 0xBF).

(** Strict decoding: overlong forms, surrogates and code points above
    U+10FFFF are errors. *)
Fixpoint utf8_decode (bs : bytes) : result str :=
  match bs with
  | [] => Ok []
  | a0 :: t0 =>
      let b0 := code a0 in
      if b0 <? 0x80 then rest ← utf8_decode t0; Ok (b0 :: rest)
      else if (0xC2 <=? b0) && (b0 <=? 0xDF) then
        match t0 with
        | a1 :: t1 =>
            let b1 := code a1 in
            if is_cont b1 then
              rest ← utf8_decode t1;
              Ok ((b0 - 0xC0) * 64 + (b1 - 0x80) :: rest)
            else Raise UnicodeDecodeError
        | _ => Raise UnicodeDecodeError
        end
      else if (0xE0 <=? b0) && (b0 <=? 0xEF) then
        match t0 with
        | a1 :: a2 :: t2 =>
            let b1 := code a1 in
            let b2 := code a2 in
            let c := (b0 - 0xE0) * 4096 + (b1 - 0x80) * 64 + (b2 - 0x80) in
            if is_cont b1 && is_cont b2 && (0x800 <=? c) && negb (is_surrogate c)
            then rest ← utf8_decode t2; Ok (c :: rest)
            else Raise UnicodeDecodeError
        | _ => Raise UnicodeDecodeError
        end
      else if (0xF0 <=? b0) && (b0 <=? 0xF4) then
        match t0 with
        | a1 :: a2 :: a3 :: t3 =>
            let b1 := code a1 in
            let b2 := code a2 in
            let b3 := code a3 in
            let c := (b0 - 0xF0) * 262144 + (b1 - 0x80) * 4096
                     + (b2 - 0x80) * 64 + (b3 - 0x80) in
            if is_cont b1 && is_cont b2 && is_cont b3
               && (0x10000 <=? c) && (c <? 0x110000)
            then rest ← utf8_decode t3; Ok (c :: rest)
            else Raise UnicodeDecodeError
        | _ => Raise UnicodeDecodeError
        end
      else Raise UnicodeDecodeError
  end.

(** The ASCII reading of a byte string, as [int(b)] and [float(b)] do it:
    a byte above 127 is not part of any number. *)
Fixpoint ascii_decode (bs : bytes) : result str :=
  match bs with
  | [] => Ok []
  | a :: t =>
      if code a <? 0x80 then rest ← ascii_decode t; Ok (code a :: rest)
      else Raise ValueError
  end.

Local Close Scope N_scope.

(** ** Integers as text: [str(n)] and [int(s)] *)

Definition str_of_int (z : Z) : str := U (NilZero.string_of_int (Z.to_int z)).

(** White space skipped by [int()]: the ASCII blanks and, in a [str], the
    Unicode spaces above U+007F. *)
Definition is_space (c : N) : bool :=
  ((9 <=? c) && (c <=? 13) || (c =? 32)
   || (c =? 0x85) || (c =? 0xA0) || (c =? 0x1680)
   || ((0x2000 <=? c) && (c <=? 0x200A))
   || (c =? 0x2028) || (c =? 0x2029) || (c =? 0x202F) || (c =? 0x205F)
   || (c =? 0x3000))%N.

Fixpoint lstrip (l : str) : str :=
  match l with
  | c :: l' => if is_space c then lstrip l' else l
  | [] => []
  end.

Fixpoint rstrip (l : str) : str :=
  match l with
  | [] => []
  | c :: l' =>
      match rstrip l' with
      | [] => if is_space c then [] else [c]
      | r => c :: r
      end
  end.

Definition strip (l : str) : str := rstrip (lstrip l).

Definition digit_of (c : N) (d : Decimal.uint) : option Decimal.uint :=
  match c with
  | 48%N => Some (Decimal.D0 d) | 49%N => Some (Decimal.D1 d)
  | 50%N => Some (Decimal.D2 d) | 51%N => Some (Decimal.D3 d)
  | 52%N => Some (Decimal.D4 d) | 53%N => Some (Decimal.D5 d)
  | 54%N => Some (Decimal.D6 d) | 55%N => Some (Decimal.D7 d)
  | 56%N => Some (Decimal.D8 d) | 57%N => Some (Decimal.D9 d)
  | _ => None
  end.

(** The digits of a literal; one underscore may stand between two digits.
    [after_digit] tells whether the previous character was a digit.  Only
    the ASCII digits are read; the other Unicode decimal digits, which
    [int()] also accepts in a [str], are outside this model. *)
Fixpoint digits (after_digit : bool) (l : str) : option Decimal.uint :=
  match l with
  | [] => if after_digit then Some Decimal.Nil else None
  | c :: l' =>
      if (c =? 95)%N then (if after_digit then digits false l' else None)
      else d ← digits true l'; digit_of c d
  end.

Definition int_of_str (s : str) : result Z :=
  let s' := strip s in
  let parsed :=
    match s' with
    | 45%N :: ds => Decimal.Neg <$> digits false ds
    | 43%N :: ds => Decimal.Pos <$> digits false ds
    | _ => Decimal.Pos <$> digits false s'
    end in
  match parsed with
  | Some d => Ok (Z.of_int d)
  | None => Raise ValueError
  end.

(** [int(b)] on bytes reads the same literals, in ASCII. *)
Definition int_of_bytes (b : bytes) : result Z :=
  s ← ascii_decode b; int_of_str s.

(** ** Floats

    The code never computes with a tag's float: it prints it with [str()]
    and reads it back with [float()].  Both are taken as an interface. *)

Class PyFloat (F : Type) : Type := {
  float_str : F -> str;              (* str(x) *)
  float_of_str : str -> result F     (* float(s) *)
}.

(** [float(b)] on bytes reads the ASCII text of [b]. *)
Definition float_of_bytes {F} `{PyFloat F} (b : bytes) : result F :=
  s ← ascii_decode b; float_of_str s.

(** ** Values *)

Inductive pyval (F : Type) : Type :=
  | VStr (s : str)
  | VBytes (b : bytes)
  | VInt (z : Z)
  | VFloat (f : F)
  | VNone.   (* [None]; any value that is neither text, bytes, int nor float
                is treated by the code as [None] is *)
Arguments VStr {F} s.
Arguments VBytes {F} b.
Arguments VInt {F} z.
Arguments VFloat {F} f.
Arguments VNone {F}.

(** The content of a field: a line of text or a line of bytes. *)
Inductive field : Type :=
  | FStr (s : str)
  | FBytes (b : bytes).

(** [len(x)] *)
Definition len (x : field) : Z :=
  match x with
  | FStr s => Z.of_nat (length s)
  | FBytes b => Z.of_nat (length b)
  end.

(** [x[start:stop]] *)
Definition slice (start stop : Z) (x : field) : field :=
  match x with
  | FStr s => FStr (py_slice start stop s)
  | FBytes b => FBytes (py_slice start stop b)
  end.

(** [repr(b)], which is what [%s] in a [str] template prints of bytes. *)
Definition hex_digit (n : N) : N :=
  (if n <? 10 then 48 + n else 87 + n)%N.

Definition repr_byte (quote : N) (a : ascii) : str :=
  let c := code a in
  if ((c =? quote) || (c =? 92))%N then [92%N; c]
  else if (c =? 9)%N then U "\t"
  else if (c =? 10)%N then U "\n"
  else if (c =? 13)%N then U "\r"
  else if ((c <? 32) || (127 <=? c))%N
       then [92%N; 120%N; hex_digit (c / 16); hex_digit (c mod 16)]
  else [c].

Definition bytes_repr (b : bytes) : str :=
  let has q := existsb (fun a => (code a =? q)%N) b in
  let quote := if has 39%N && negb (has 34%N) then 34%N else 39%N in
  [98%N; quote] ++ concat (map (repr_byte quote) b) ++ [quote].

(** ** class Record *)

Inductive variant : Type :=
  | Textual    (* StrRecord *)
  | Binary.    (* BytesRecord *)

(** An object of class [Record]: its class and the four entries of
    [_data]. *)
Record record : Type := {
  cls : variant;
  name : field;
  sequence : field;
  name2 : field;
  quality : field
}.

(** [Record(record)] for a group of four lines. *)
Definition mk_record (c : variant) (g : field * field * field * field) : record :=
  let '(a, b, c', d) := g in
  {| cls := c; name := a; sequence := b; name2 := c'; quality := d |}.

Section Setters.
Context {F : Type}.

(** [isinstance(value, (bytes, str))] *)
Definition as_field (value : pyval F) : option field :=
  match value with
  | VStr s => Some (FStr s)
  | VBytes b => Some (FBytes b)
  | _ => None
  end.

Definition set_name (value : pyval F) (r : record) : result record :=
  match as_field value with
  | None => Raise TypeError
  | Some x => Ok {| cls := cls r; name := x; sequence := sequence r;
                    name2 := name2 r; quality := quality r |}
  end.

Definition set_sequence (value : pyval F) (r : record) : result record :=
  match as_field value with
  | None => Raise TypeError
  | Some x => Ok {| cls := cls r; name := name r; sequence := x;
                    name2 := name2 r; quality := quality r |}
  end.

Definition set_name2 (value : pyval F) (r : record) : result record :=
  match as_field value with
  | None => Raise TypeError
  | Some x => Ok {| cls := cls r; name := name r; sequence := sequence r;
                    name2 := x; quality := quality r |}
  end.

Definition set_quality (value : pyval F) (r : record) : result record :=
  match as_field value with
  | None => Raise TypeError
  | Some x => Ok {| cls := cls r; name := name r; sequence := sequence r;
                    name2 := name2 r; quality := x |}
  end.
End Setters.

(** [len(record)] *)
Definition record_len (r : record) : Z := len (sequence r).

(** [self._data] *)
Definition _data (r : record) : list field :=
  [name r; sequence r; name2 r; quality r].

(** [b''.join(items)]: an item that is not bytes is a type error. *)
Fixpoint join_bytes (items : list field) : result bytes :=
  match items with
  | [] => Ok []
  | FBytes b :: rest => tl ← join_bytes rest; Ok (b ++ tl)
  | FStr _ :: _ => Raise TypeError
  end.

(** [''.join(items)]: an item that is not text is a type error. *)
Fixpoint join_str (items : list field) : result str :=
  match items with
  | [] => Ok []
  | FStr s :: rest => tl ← join_str rest; Ok (s ++ tl)
  | FBytes _ :: _ => Raise TypeError
  end.

(** [try: return b''.join(self._data)
     except TypeError: return ''.join(self._data).encode()] *)
Definition __bytes__ (r : record) : result bytes :=
  match join_bytes (_data r) with
  | Raise TypeError => s ← join_str (_data r); utf8_encode s
  | joined => joined
  end.

(** [try: return ''.join(self._data)
     except TypeError: return b''.join(self._data).decode()] *)
Definition __str__ (r : record) : result str :=
  match join_str (_data r) with
  | Raise TypeError => b ← join_bytes (_data r); utf8_decode b
  | joined => joined
  end.

(** ** average_quality

    [np.mean(np.fromstring(quality, dtype=np.int8, count=len(self)))
       .astype(int) - 33]: the first [len(self)] bytes, read as signed
    8-bit integers, are averaged in double precision, the mean is
    truncated towards zero, and 33 is subtracted.  The sum of fewer than
    2^46 such bytes is exact in double precision and the rounded quotient
    has the integer part of the exact one, so the truncated mean is
    [Z.quot sum count]. *)

Definition int8 (a : ascii) : Z :=
  let b := Z.of_N (code a) in
  if b <? 128 then b else b - 256.

Definition sum (l : list Z) : Z := fold_right Z.add 0 l.

(** [np.frombuffer(data, dtype=np.int8, count=count)] *)
Definition np_int8 (data : bytes) (count : Z) : result (list Z) :=
  if Z.of_nat (length data) <? count then Raise ValueError
  else Ok (map int8 (take (Z.to_nat count) data)).

(** [np.mean(a).astype(int)]; the mean of no element is NaN. *)
Definition np_mean_int (a : list Z) : result Z :=
  match a with
  | [] => Raise NaNConversion
  | _ => Ok (Z.quot (sum a) (Z.of_nat (length a)))
  end.

(** ** class StrRecord *)

Module StrRecord.
Section WithFloat.
Context {F : Type} `{PyFloat F}.

(** [_str_itype_map[t]]: [None] is the missing key. *)
Definition _str_itype_map (t : str) : option (str -> result (pyval F)) :=
  if decide (t = U "i") then Some (fun v => z ← int_of_str v; Ok (VInt z))
  else if decide (t = U "Z") then Some (fun v => Ok (VStr v))
  else if decide (t = U "f") then Some (fun v => x ← float_of_str v; Ok (VFloat x))
  else None.

(** The dict comprehension of [get_tags], one segment after the other:
    [k, t, v = seg.split(':')], then [d[k] = _str_itype_map[t](v)]. *)
Fixpoint tags_of (segs : list str) (d : gmap str (pyval F))
  : result (gmap str (pyval F)) :=
  match segs with
  | [] => Ok d
  | seg :: rest =>
      match split 58%N seg with
      | [k; t; v] =>
          match _str_itype_map t with
          | None => Raise KeyError
          | Some conv => x ← conv v; tags_of rest (<[k:=x]> d)
          end
      | _ => Raise ValueError
      end
  end.

Definition get_tags (r : record) : result (gmap str (pyval F)) :=
  match name r with
  | FStr n => tags_of (but_last (split 59%N (from1 n))) ∅
  | FBytes _ => Raise TypeError   (* bytes.split(';') *)
  end.

(** [try: return self.get_tags()[key] / except KeyError: return None] *)
Definition get_tag (r : record) (key : str) : result (pyval F) :=
  match get_tags r with
  | Ok d => match d !! key with
            | Some v => Ok v
            | None => Ok VNone
            end
  | Raise KeyError => Ok VNone
  | Raise e => Raise e
  end.

Definition _mktag (key : str) (value : pyval F) : result str :=
  match value with
  | VStr s => Ok (key ++ U ":" ++ U "Z" ++ U ":" ++ s)
  | VFloat x => Ok (key ++ U ":" ++ U "f" ++ U ":" ++ float_str x)
  | VInt z => Ok (key ++ U ":" ++ U "i" ++ U ":" ++ str_of_int z)
  | VBytes _ => Raise AttributeError   (* bytes has no [encode] *)
  | VNone => Raise TypeError
  end.

(** ['@%s;%s' % (tags, self.name[1:])] *)
Definition prepend (tags : str) (n : field) : str :=
  match n with
  | FStr s => U "@" ++ tags ++ U ";" ++ from1 s
  | FBytes b => U "@" ++ tags ++ U ";" ++ bytes_repr (from1 b)
  end.

Definition set_tag (r : record) (key : str) (value : pyval F) : result record :=
  tag ← _mktag key value;
  set_name (F:=F) (VStr (prepend tag (name r))) r.

Fixpoint mktags (kv_pairs : list (str * pyval F)) : result (list str) :=
  match kv_pairs with
  | [] => Ok []
  | (k, v) :: rest => t ← _mktag k v; ts ← mktags rest; Ok (t :: ts)
  end.

Definition set_tags (r : record) (kv_pairs : list (str * pyval F))
  : result record :=
  ts ← mktags kv_pairs;
  set_name (F:=F) (VStr (prepend (join (U ";") ts) (name r))) r.
End WithFloat.

Definition average_quality (r : record) : result Z :=
  data ← match quality r with
         | FStr s => utf8_encode s    (* a str is read through its UTF-8 bytes *)
         | FBytes b => Ok b
         end;
  a ← np_int8 data (record_len r);
  m ← np_mean_int a;
  Ok (m - 33).
End StrRecord.

(** ** class BytesRecord *)

Module BytesRecord.
Section WithFloat.
Context {F : Type} `{PyFloat F}.

Definition _bytes_itype_map (t : bytes) : option (bytes -> result (pyval F)) :=
  if decide (t = B "i") then Some (fun v => z ← int_of_bytes v; Ok (VInt z))
  else if decide (t = B "Z") then Some (fun v => Ok (VBytes v))
  else if decide (t = B "f") then Some (fun v => x ← float_of_bytes v; Ok (VFloat x))
  else None.

(** As in [StrRecord], with the key decoded: [d[k.decode()] = ...].  The
    key is evaluated before the value (Python 3.8 and later; the order
    only decides which of two exceptions is seen). *)
Fixpoint tags_of (segs : list bytes) (d : gmap str (pyval F))
  : result (gmap str (pyval F)) :=
  match segs with
  | [] => Ok d
  | seg :: rest =>
      match split ":"%char seg with
      | [k; t; v] =>
          k' ← utf8_decode k;
          match _bytes_itype_map t with
          | None => Raise KeyError
          | Some conv => x ← conv v; tags_of rest (<[k':=x]> d)
          end
      | _ => Raise ValueError
      end
  end.

Definition get_tags (r : record) : result (gmap str (pyval F)) :=
  match name r with
  | FBytes n => tags_of (but_last (split ";"%char (from1 n))) ∅
  | FStr _ => Raise TypeError   (* str.split(b';') *)
  end.

Definition get_tag (r : record) (key : str) : result (pyval F) :=
  match get_tags r with
  | Ok d => match d !! key with
            | Some v => Ok v
            | None => Ok VNone
            end
  | Raise KeyError => Ok VNone
  | Raise e => Raise e
  end.

Definition _mktag (key : str) (value : pyval F) : result bytes :=
  tv ← match value with
       | VStr s => v ← utf8_encode s; Ok (B "Z", v)
       | VBytes b => Ok (B "Z", b)
       | VFloat x => v ← utf8_encode (float_str x); Ok (B "f", v)
       | VInt z => v ← utf8_encode (str_of_int z); Ok (B "i", v)
       | VNone => Raise TypeError
       end;
  k ← utf8_encode key;
  Ok (k ++ B ":" ++ tv.1 ++ B ":" ++ tv.2).

(** [b'@%s;%s' % (tags, self.name[1:])]: a [str] argument is refused. *)
Definition prepend (tags : bytes) (n : field) : result bytes :=
  match n with
  | FBytes b => Ok (B "@" ++ tags ++ B ";" ++ from1 b)
  | FStr _ => Raise TypeError
  end.

Definition set_tag (r : record) (key : str) (value : pyval F) : result record :=
  tag ← _mktag key value;
  new ← prepend tag (name r);
  set_name (F:=F) (VBytes new) r.

Fixpoint mktags (kv_pairs : list (str * pyval F)) : result (list bytes) :=
  match kv_pairs with
  | [] => Ok []
  | (k, v) :: rest => t ← _mktag k v; ts ← mktags rest; Ok (t :: ts)
  end.

Definition set_tags (r : record) (kv_pairs : list (str * pyval F))
  : result record :=
  ts ← mktags kv_pairs;
  new ← prepend (join (B ";") ts) (name r);
  set_name (F:=F) (VBytes new) r.
End WithFloat.

Definition average_quality (r : record) : result Z :=
  data ← match quality r with
         | FStr _ => Raise TypeError   (* no buffer in a str *)
         | FBytes b => Ok b
         end;
  a ← np_int8 data (record_len r);
  m ← np_mean_int a;
  Ok (m - 33).
End BytesRecord.

(** ** Method dispatch on the class of the object *)

Section Dispatch.
Context {F : Type} `{PyFloat F}.

Definition get_tags (r : record) : result (gmap str (pyval F)) :=
  match cls r with
  | Textual => StrRecord.get_tags r
  | Binary => BytesRecord.get_tags r
  end.

Definition get_tag (r : record) (key : str) : result (pyval F) :=
  match cls r with
  | Textual => StrRecord.get_tag r key
  | Binary => BytesRecord.get_tag r key
  end.

Definition set_tag (r : record) (key : str) (value : pyval F) : result record :=
  match cls r with
  | Textual => StrRecord.set_tag r key value
  | Binary => BytesRecord.set_tag r key value
  end.

Definition set_tags (r : record) (kv : list (str * pyval F)) : result record :=
  match cls r with
  | Textual => StrRecord.set_tags r kv
  | Binary => BytesRecord.set_tags r kv
  end.
End Dispatch.

Definition average_quality (r : record) : result Z :=
  match cls r with
  | Textual => StrRecord.average_quality r
  | Binary => BytesRecord.average_quality r
  end.

(** ** class Reader *)

(** Modelled from the spec: the parent class [reader.Reader] (module
    [reader], the line source) is not among the sources.  Its constructor
    admits two open modes, the text mode ['r'] (the default) and the
    binary mode ['rb'], and raises [ValueError] for any other; its
    iterator, [super().__iter__()], yields the raw lines of the files in
    order, terminators included, and honours the mode: text in the text
    mode, bytes in the binary mode.  A reader is therefore a source of
    text lines or a source of byte lines. *)
Inductive Reader : Type :=
  | TextReader (text_lines : list str)
  | BytesReader (byte_lines : list bytes).

(** The attribute [_mode], as the constructor stored it. *)
Definition _mode (rd : Reader) : str :=
  match rd with
  | TextReader _ => U "r"
  | BytesReader _ => U "rb"
  end.

(** [super().__iter__()] *)
Definition lines (rd : Reader) : list field :=
  match rd with
  | TextReader ls => FStr <$> ls
  | BytesReader ls => FBytes <$> ls
  end.

(** [zip] over four references to one iterator: four items at a time, and
    [zip] stops at the first group it cannot complete. *)
Fixpoint record_grouper {A} (iterable : list A) : list (A * A * A * A) :=
  match iterable with
  | a :: b :: c :: d :: rest => (a, b, c, d) :: record_grouper rest
  | _ => []
  end.

Definition record_type (mode : str) : variant :=
  if decide (mode = U "r") then Textual else Binary.

Definition Reader_iter (rd : Reader) : list record :=
  map (mk_record (record_type (_mode rd))) (record_grouper (lines rd)).

(** *** numpy on the sample *)

(** [np.mean(data)]; [None] stands for the NaN of an empty sample. *)
Definition np_mean (data : list Z) : option Q :=
  match data with
  | [] => None
  | _ => Some (inject_Z (sum data) / inject_Z (Z.of_nat (length data)))%Q
  end.

(** [np.var(data)]: the population variance, the mean of the squared
    distances to the mean. *)
Definition np_var (data : list Z) : option Q :=
  match np_mean data with
  | None => None
  | Some m =>
      Some (fold_right Qplus 0%Q
              (map (fun x => (inject_Z x - m) * (inject_Z x - m))%Q data)
            / inject_Z (Z.of_nat (length data)))%Q
  end.

(** [np.std(data)]: the square root of [np.var(data)].  It is taken in the
    real numbers: the rounding of the double-precision result is not
    modelled. *)
Definition np_std (data : list Z) : option R :=
  option_map (fun v => sqrt (Q2R v)) (np_var data).

Fixpoint insert_sorted (x : Z) (l : list Z) : list Z :=
  match l with
  | [] => [x]
  | y :: l' => if x <=? y then x :: l else y :: insert_sorted x l'
  end.

Definition sort (l : list Z) : list Z := fold_right insert_sorted [] l.

(** Runs of equal values of a sorted list. *)
Fixpoint runs (l : list Z) : list (Z * Z) :=
  match l with
  | [] => []
  | x :: l' =>
      match runs l' with
      | (y, n) :: rs => if x =? y then (y, n + 1) :: rs else (x, 1) :: (y, n) :: rs
      | [] => [(x, 1)]
      end
  end.

(** [np.unique(data, return_counts=True)] *)
Definition np_unique (data : list Z) : list Z * list Z :=
  let rs := runs (sort data) in (map fst rs, map snd rs).

(** *** estimate_sequence_length *)

Definition sample_size : nat := Z.to_nat 10000.

(** The loop [while i < 10000], with [10000 - i] iterations left.  [data]
    is the buffer, [records] the iterator; the result is the buffer and
    what is left of the iterator. *)
Fixpoint fill (left : nat) (i : nat) (records : list record) (data : list Z)
  : list Z * list record :=
  match left with
  | O => (data, records)
  | S left' =>
      match records with
      | [] => (take i data, [])                       (* StopIteration *)
      | r :: rest =>
          fill left' (S i) rest (<[i := len (sequence r) - 1]> data)
      end
  end.

(** The triple returned: mean, standard deviation, histogram. *)
Record estimate : Type := {
  mean : option Q;
  std : option R;
  histogram : list Z * list Z
}.

(** [empty] is the content of [np.empty(10000, dtype=int)], which is not
    initialised. *)
Definition estimate_sequence_length (empty : list Z) (rd : Reader)
  : estimate * list record :=
  let '(data, rest) := fill sample_size 0 (Reader_iter rd) empty in
  ({| mean := np_mean data; std := np_std data;
      histogram := np_unique data |}, rest).

(** ** class TagGenerator *)

Record Tag : Type := {
  start : Z;
  end_ : Z;
  sequence_tag : str;
  quality_tag : str
}.

Record TagGenerator : Type := {
  tags : list Tag;
  reader : Reader
}.

Definition tag_tuple : Type := str * field * str.

Definition extract_tag (r : record) (tag : Tag) : tag_tuple * tag_tuple :=
  let seq := slice (start tag) (end_ tag) (sequence r) in
  let qual := slice (start tag) (end_ tag) (quality r) in
  ((sequence_tag tag, seq, U "Z"), (quality_tag tag, qual, U "Z")).

(** [tags = []; for tag in self.tags: tags.extend(extract_tag(record, tag))] *)
Definition record_tags (ts : list Tag) (r : record) : list tag_tuple :=
  fold_left (fun acc tag => let '(s, q) := extract_tag r tag in acc ++ [s; q])
            ts [].

Definition TagGenerator_iter (g : TagGenerator) : list (list tag_tuple) :=
  map (record_tags (tags g)) (Reader_iter (reader g)).

(** ** An instance to run the definitions

    The floats of integral value, which [str()] prints as the integer
    followed by [.0] (below 10^16); [float()] reads exactly these texts
    back.  It serves to evaluate the definitions on concrete records. *)

Definition whole_float_str (z : Z) : str := str_of_int z ++ U ".0".

Definition whole_float_of_str (s : str) : result Z :=
  match reverse s with
  | 48%N :: 46%N :: ds =>
      z ← int_of_str (reverse ds);
      if decide (s = whole_float_str z) then Ok z else Raise ValueError
  | _ => Raise ValueError
  end.

#[global] Instance whole_floats : PyFloat Z := {|
  float_str := whole_float_str;
  float_of_str := whole_float_of_str
|}.

Abbreviation value := (pyval Z).

(** * Vocabulary of the statements *)

(** The record [r] with the name [x]. *)
Definition with_name (x : field) (r : record) : record :=
  {| cls := cls r; name := x; sequence := sequence r;
     name2 := name2 r; quality := quality r |}.

(** ** Tags *)

(** The tag segments of a name: what stands between its second character
    and its last [';']. *)
Definition text_segments (n : str) : list str := but_last (split 59%N (from1 n)).

Definition bytes_segments (n : bytes) : list bytes :=
  but_last (split ";"%char (from1 n)).

(** A segment is well formed when it has three parts and its type is one
    of [i], [Z], [f]. *)
Definition well_formed_text (seg : str) : bool :=
  match split 58%N seg with
  | [_; t; _] => bool_decide (t ∈ [U "i"; U "Z"; U "f"])
  | _ => false
  end.

Definition well_formed_bytes (seg : bytes) : bool :=
  match split ":"%char seg with
  | [_; t; _] => bool_decide (t ∈ [B "i"; B "Z"; B "f"])
  | _ => false
  end.

(** Text and bytes without [':'] and [';']. *)
Definition sep_free (s : str) : Prop := (58%N ∉ s) /\ (59%N ∉ s).

Definition sep_free_bytes (b : bytes) : Prop :=
  (":"%char ∉ b) /\ (";"%char ∉ b).

(** The characters of a printed integer: the sign and the digits. *)
Definition is_numeric (c : N) : bool :=
  ((c =? 45) || ((48 <=? c) && (c <=? 57)))%N.

(** The keys a tag can have: no separator in them and, for the binary
    variant, an encoding (no surrogate). *)
Definition key_ok (c : variant) (k : str) : Prop :=
  sep_free k
  /\ match c with Textual => True | Binary => is_ok (utf8_encode k) = true end.

(** The values a tag can carry and give back: an integer; a text without
    separator which, for the binary variant, has a UTF-8 encoding (no
    surrogate); for the binary variant only, bytes without separator; a
    float whose printed form has no separator, is read back by [float()]
    as the same float (every float but NaN, which is not equal to itself)
    and, for the binary variant, is ASCII (in Python it always is). *)
Definition storable {F : Type} `{PyFloat F} (c : variant) (v : pyval F) : Prop :=
  match v, c with
  | VInt _, _ => True
  | VStr s, Textual => sep_free s
  | VStr s, Binary => sep_free s /\ is_ok (utf8_encode s) = true
  | VBytes b, Binary => sep_free_bytes b
  | VBytes _, Textual => False
  | VFloat x, Textual =>
      sep_free (float_str x) /\ float_of_str (float_str x) = Ok x
  | VFloat x, Binary =>
      sep_free (float_str x) /\ Forall (fun c => (c < 128)%N) (float_str x)
      /\ float_of_str (float_str x) = Ok x
  | VNone, _ => False
  end.

(** The value read back: the binary variant gives a text back as its
    UTF-8 bytes. *)
Definition read_back {F : Type} (c : variant) (v : pyval F) : pyval F :=
  match c, v with
  | Binary, VStr s =>
      match utf8_encode s with Ok b => VBytes b | Raise _ => v end
  | _, _ => v
  end.

(** ** Average quality *)

(** The bytes [average_quality] reads: for the textual variant the UTF-8
    bytes of a [str] (or the bytes themselves), for the binary variant the
    bytes. *)
Definition quality_bytes (r : record) : result bytes :=
  match cls r, quality r with
  | Textual, FStr s => utf8_encode s
  | Binary, FStr _ => Raise TypeError
  | _, FBytes b => Ok b
  end.

(** In the words of the specification: each of the first [n] bytes is
    decoded to a score by subtracting 33, and the mean of the scores is
    truncated. *)
Definition phred_scores (data : bytes) (n : Z) : list Z :=
  map (fun a => int8 a - 33) (take (Z.to_nat n) data).

Definition truncated_mean_score (data : bytes) (n : Z) : Z :=
  Z.quot (sum (phred_scores data n)) n.

(** ** The sample of [estimate_sequence_length] *)

(** What the loop records for a record. *)
Definition seq_length (r : record) : Z := len (sequence r) - 1.


(** The number of occurrences of [x] in [l]. *)
Definition count (l : list Z) (x : Z) : Z := Z.of_nat (count_occ Z.eq_dec l x).

(** ** The tag generator *)

(** The two tuples of a descriptor. *)
Definition tag_tuples (r : record) (tag : Tag) : list tag_tuple :=
  [ (sequence_tag tag, slice (start tag) (end_ tag) (sequence r), U "Z");
    (quality_tag tag, slice (start tag) (end_ tag) (quality r), U "Z") ].

(** ** Rendering *)

Definition is_text (x : field) : bool :=
  match x with FStr _ => true | FBytes _ => false end.

(** ** Lists of tags *)

(** The name of the record is of the kind of its variant. *)
Definition own_kind (r : record) : Prop :=
  match cls r, name r with
  | Textual, FStr _ | Binary, FBytes _ => True
  | _, _ => False
  end.

(** The untagged name: what follows the last [';'] (the name from its
    second character on when there is none). *)
Definition untagged (x : field) : field :=
  match x with
  | FStr n => FStr (default [] (last (split 59%N (from1 n))))
  | FBytes n => FBytes (default [] (last (split ";"%char (from1 n))))
  end.

(** Pairs whose keys and values can be written and read back. *)
Definition pairs_ok {F : Type} `{PyFloat F} (c : variant)
    (kv : list (str * pyval F)) : Prop :=
  Forall (fun p => key_ok c p.1 /\ storable c p.2) kv.

(** One more entry in a dictionary. *)
Definition ins {F : Type} (d : gmap str (pyval F)) (p : str * pyval F)
  : gmap str (pyval F) :=
  <[p.1 := p.2]> d.

(** The dictionary of a list of pairs as they are read back: a later pair
    replaces an earlier one with the same key. *)
Definition tags_dict {F : Type} (c : variant) (kv : list (str * pyval F))
  : gmap str (pyval F) :=
  list_to_map (reverse (prod_map id (read_back c) <$> kv)).

(** The values [_mktag] has a branch for: [None] stands for every other
    value, and the branch for bytes of the textual variant calls
    [encode] on them, which bytes do not have. *)
Definition supported {F : Type} (c : variant) (v : pyval F) : bool :=
  match v, c with
  | VNone, _ => false
  | VBytes _, Textual => false
  | _, _ => true
  end.

(** * Sample data *)

Definition sample_text_record : record :=
  {| cls := Textual; name := FStr (U "@read1"); sequence := FStr (U "ACGT");
     name2 := FStr (U "+"); quality := FStr (U "IIII") |}.

Definition sample_bytes_record : record :=
  {| cls := Binary; name := FBytes (B "@read1"); sequence := FBytes (B "ACGT");
     name2 := FBytes (B "+"); quality := FBytes (B "IIII") |}.

(** A record whose name already carries the tag [k:i:1]. *)
Definition tagged_text_record : record :=
  {| cls := Textual; name := FStr (U "@k:i:1;read1"); sequence := FStr (U "ACGT");
     name2 := FStr (U "+"); quality := FStr (U "IIII") |}.

(** A text source of one record and two more lines. *)
Definition six_lines : list str :=
  [U "@read1"; U "ACGT"; U "+"; U "IIII"; U "@read2"; U "AC"].

Definition six_line_reader : Reader := TextReader six_lines.

(** The same lines read in the binary mode. *)
Definition six_line_bytes_reader : Reader :=
  BytesReader [B "@read1"; B "ACGT"; B "+"; B "IIII"; B "@read2"; B "AC"].

(** Three reads of 10, 20 and 30 bases, as the lines of a file: each line
    ends with its newline. *)
Definition read_lines (n : nat) : list str :=
  [U "@read" ++ [10%N]; replicate n 65%N ++ [10%N];
   U "+" ++ [10%N]; replicate n 73%N ++ [10%N]].

Definition three_reads : Reader :=
  TextReader (read_lines 10 ++ read_lines 20 ++ read_lines 30).

Definition sample_tag : Tag :=
  {| start := 2; end_ := 5; sequence_tag := U "BC"; quality_tag := U "QB" |}.

Definition sample_tag_generator : TagGenerator :=
  {| tags := [sample_tag];
     reader := TextReader [U "@read1"; U "ACGTACGT"; U "+"; U "IIIIIIII"] |}.


(** A record with a text name and a sequence of bytes. *)
Definition mixed_record : record :=
  {| cls := Textual; name := FStr (U "@read1"); sequence := FBytes (B "ACGT");
     name2 := FStr (U "+"); quality := FStr (U "IIII") |}.

(** A record whose name has a segment without colon. *)
Definition malformed_record : record :=
  {| cls := Textual; name := FStr (U "@bad_no_colon;orig"); sequence := FStr (U "ACGT");
     name2 := FStr (U "+"); quality := FStr (U "IIII") |}.

(** Two tags for a binary record: a cell barcode and a count. *)
Definition two_pairs : list (str * value) :=
  [(U "CB", VStr (U "ACGT")); (U "n", VInt 3)].

(** A record whose quality is shorter than its sequence. *)
Definition short_quality_record : record :=
  {| cls := Binary; name := FBytes (B "@read1"); sequence := FBytes (B "ACGT");
     name2 := FBytes (B "+"); quality := FBytes (B "II") |}.

(** * Properties *)

(** ** Splitting and joining *)

Section SequenceFacts.
Context {A : Type} `{EqDecision A}.
Implicit Types (sep : A) (l a b : list A).

Lemma split_nonempty sep l : split sep l <> [].
Proof.
  destruct l as [|c l]; simpl; [discriminate|].
  destruct (decide (c = sep)); [discriminate|].
  destruct (split sep l); discriminate.
Qed.

Lemma split_no_sep sep a : sep ∉ a -> split sep a = [a].
Proof.
  induction a as [|c a IH]; intros Hn; simpl; [reflexivity|].
  apply not_elem_of_cons in Hn as [Hc Ha].
  destruct (decide (c = sep)); [congruence|].
  rewrite (IH Ha). reflexivity.
Qed.

Lemma split_app_sep sep a b :
  sep ∉ a -> split sep (a ++ sep :: b) = a :: split sep b.
Proof.
  induction a as [|c a IH]; intros Hn; simpl.
  - destruct (decide (sep = sep)); [reflexivity|congruence].
  - apply not_elem_of_cons in Hn as [Hc Ha].
    destruct (decide (c = sep)); [congruence|].
    rewrite (IH Ha). reflexivity.
Qed.

Lemma split_three sep a b c :
  sep ∉ a -> sep ∉ b -> sep ∉ c ->
  split sep (a ++ sep :: b ++ sep :: c) = [a; b; c].
Proof.
  intros Ha Hb Hc.
  rewrite (split_app_sep _ _ _ Ha), (split_app_sep _ _ _ Hb), (split_no_sep _ _ Hc).
  reflexivity.
Qed.

Lemma but_last_cons {X} (x : X) (l : list X) :
  l <> [] -> but_last (x :: l) = x :: but_last l.
Proof.
  destruct l as [|y l]; [congruence|]. intros _.
  unfold but_last. simpl. rewrite Nat.sub_0_r. reflexivity.
Qed.

(** The segments before the last [sep] of [a ++ sep :: b]. *)
Lemma segments_cons sep a b :
  sep ∉ a ->
  but_last (split sep (a ++ sep :: b)) = a :: but_last (split sep b).
Proof.
  intros Ha. rewrite (split_app_sep _ _ _ Ha).
  apply but_last_cons, split_nonempty.
Qed.
End SequenceFacts.

(** ** Slices *)

Lemma py_slice_nat {X} (a n : nat) (l : list X) :
  py_slice (Z.of_nat a) (Z.of_nat a + Z.of_nat n) l = take n (drop a l).
Proof.
  unfold py_slice, clamp.
  destruct (Z.ltb_spec (Z.of_nat a) 0) as [?|_]; [lia|].
  destruct (Z.ltb_spec (Z.of_nat a + Z.of_nat n) 0) as [?|_]; [lia|].
  set (len := Z.of_nat (length l)).
  destruct (Z.ltb_spec (Z.min (Z.of_nat a) len) (Z.min (Z.of_nat a + Z.of_nat n) len))
    as [Hlt|Hge].
  - assert (Ha : (a < length l)%nat) by lia.
    replace (Z.to_nat (Z.min (Z.of_nat a) len)) with a by lia.
    destruct (Z.le_ge_cases (Z.of_nat a + Z.of_nat n) len) as [Hle|Hle].
    + f_equal. lia.
    + rewrite !take_ge; [reflexivity| |]; rewrite length_drop; lia.
  - destruct (decide (length l <= a)%nat) as [Hle|Hgt].
    + rewrite drop_ge by lia. destruct n; reflexivity.
    + assert (n = 0%nat) by lia. subst n. reflexivity.
Qed.

Lemma py_slice_length {X} (start stop : Z) (l : list X) :
  (length (py_slice start stop l) <= length l)%nat.
Proof.
  unfold py_slice. destruct (_ <? _); simpl; [|lia].
  rewrite length_take, length_drop. lia.
Qed.

(** ** UTF-8: decoding what was encoded *)

Local Open Scope N_scope.

Ltac div_lia := zify; Z.to_euclidean_division_equations; lia.

Lemma code_byte_of x : x < 256 -> code (byte_of x) = x.
Proof. apply N_ascii_embedding. Qed.

Ltac tests :=
  repeat match goal with
  | |- context [N.ltb ?a ?b] => destruct (N.ltb_spec a b); try div_lia
  | |- context [N.leb ?a ?b] => destruct (N.leb_spec a b); try div_lia
  end.

Lemma utf8_decode_encode_char c bs rest :
  utf8_encode_char c = Some bs ->
  utf8_decode (bs ++ rest) = (r ← utf8_decode rest; Ok (c :: r)).
Proof.
  unfold utf8_encode_char, is_surrogate.
  destruct (N.ltb_spec c 0x80).
  { intros [= <-]. cbn [app utf8_decode]. rewrite code_byte_of by lia.
    destruct (N.ltb_spec c 0x80); [reflexivity|lia]. }
  destruct (N.ltb_spec c 0x800).
  { intros [= <-]. cbn [app utf8_decode]. unfold is_cont.
    rewrite !code_byte_of by div_lia.
    tests. cbn [andb].
    replace ((192 + c / 64 - 192) * 64 + (128 + c mod 64 - 128)) with c by div_lia.
    reflexivity. }
  destruct (N.ltb_spec c 0x10000).
  { destruct (N.leb_spec 0xD800 c), (N.leb_spec c 0xDFFF); cbn [andb]; try discriminate.
    all: intros [= <-]; cbn [app utf8_decode]; unfold is_cont, is_surrogate;
      rewrite !code_byte_of by div_lia.
    all: replace ((224 + c / 4096 - 224) * 4096 + (128 + (c / 64) mod 64 - 128) * 64 + (128 + c mod 64 - 128)) with c by div_lia.
    all: tests; cbn [andb negb]; try reflexivity. }
  destruct (N.ltb_spec c 0x110000); [|discriminate].
  intros [= <-]; cbn [app utf8_decode]; unfold is_cont;
      rewrite !code_byte_of by div_lia.
  replace ((240 + c / 262144 - 240) * 262144 + (128 + (c / 4096) mod 64 - 128) * 4096
                     + (128 + (c / 64) mod 64 - 128) * 64 + (128 + c mod 64 - 128)) with c by div_lia.
  tests; cbn [andb negb]; reflexivity.
Qed.

Local Close Scope N_scope.

(** ** Integers as text: [int(str(n))] is [n] *)

Lemma U_cons (a : ascii) (s : string) : U (String a s) = code a :: U s.
Proof. reflexivity. Qed.

Lemma uint_chars (d : Decimal.uint) :
  Forall (fun c => is_numeric c = true) (U (NilEmpty.string_of_uint d)).
Proof.
  induction d; simpl NilEmpty.string_of_uint; [constructor|..];
    rewrite U_cons; constructor; auto.
Qed.

Lemma digits_uint (d : Decimal.uint) :
  digits true (U (NilEmpty.string_of_uint d)) = Some d.
Proof.
  induction d; simpl NilEmpty.string_of_uint; [reflexivity|..];
    rewrite U_cons; cbn [digits code N_of_ascii]; simpl; rewrite IHd; reflexivity.
Qed.

Lemma digits_uint_first (d : Decimal.uint) :
  d <> Decimal.Nil -> digits false (U (NilEmpty.string_of_uint d)) = Some d.
Proof.
  destruct d; [congruence|..]; intros _; simpl NilEmpty.string_of_uint;
    rewrite U_cons; cbn [digits code N_of_ascii]; simpl; rewrite digits_uint; reflexivity.
Qed.

Lemma lstrip_id (l : str) : Forall (fun c => is_space c = false) l -> lstrip l = l.
Proof. destruct 1 as [|c l Hc _]; simpl; [reflexivity|]. rewrite Hc. reflexivity. Qed.

Lemma rstrip_id (l : str) : Forall (fun c => is_space c = false) l -> rstrip l = l.
Proof.
  induction 1 as [|c l Hc _ IH]; simpl; [reflexivity|].
  rewrite IH, Hc. destruct l; reflexivity.
Qed.

Lemma numeric_cases (c : N) :
  is_numeric c = true ->
  (c = 45 \/ c = 48 \/ c = 49 \/ c = 50 \/ c = 51 \/ c = 52 \/ c = 53 \/ c = 54
   \/ c = 55 \/ c = 56 \/ c = 57)%N.
Proof.
  unfold is_numeric. intros Hc.
  apply orb_true_iff in Hc as [Hc|Hc].
  - apply N.eqb_eq in Hc. lia.
  - apply andb_true_iff in Hc as [H1 H2].
    apply N.leb_le in H1, H2. lia.
Qed.

Lemma numeric_not_space (c : N) : is_numeric c = true -> is_space c = false.
Proof.
  intros Hc. apply numeric_cases in Hc.
  repeat (destruct Hc as [->|Hc]; [reflexivity|]). subst c. reflexivity.
Qed.

Lemma strip_id (l : str) : Forall (fun c => is_numeric c = true) l -> strip l = l.
Proof.
  intros Hl. assert (Hs : Forall (fun c => is_space c = false) l)
    by (eapply Forall_impl; [exact Hl|]; apply numeric_not_space).
  unfold strip. rewrite (lstrip_id _ Hs). apply rstrip_id, Hs.
Qed.

Lemma to_int_nonnil (z : Z) :
  match Z.to_int z with Decimal.Pos u | Decimal.Neg u => u <> Decimal.Nil end.
Proof.
  destruct z; simpl; try discriminate; apply DecimalPos.Unsigned.to_uint_nonnil.
Qed.

Lemma string_of_uint_nonnil (u : Decimal.uint) :
  u <> Decimal.Nil -> NilZero.string_of_uint u = NilEmpty.string_of_uint u.
Proof. destruct u; [congruence|..]; reflexivity. Qed.

Lemma str_of_int_chars (z : Z) : Forall (fun c => is_numeric c = true) (str_of_int z).
Proof.
  unfold str_of_int. pose proof (to_int_nonnil z) as Hn.
  destruct (Z.to_int z) as [u|u]; simpl NilZero.string_of_int;
    rewrite ?U_cons, (string_of_uint_nonnil u Hn).
  - apply uint_chars.
  - constructor; [reflexivity | apply uint_chars].
Qed.

Lemma int_of_str_of_int (z : Z) : int_of_str (str_of_int z) = Ok z.
Proof.
  unfold int_of_str. rewrite (strip_id _ (str_of_int_chars z)).
  unfold str_of_int. pose proof (to_int_nonnil z) as Hn.
  rewrite <- (DecimalZ.of_to z) at 2.
  destruct (Z.to_int z) as [u|u]; simpl NilZero.string_of_int;
    rewrite ?U_cons, (string_of_uint_nonnil u Hn).
  - pose proof (digits_uint_first u Hn) as Hd.
    destruct u; [congruence|..]; simpl NilEmpty.string_of_uint in *;
      rewrite U_cons in *; cbn [code N_of_ascii] in *; simpl N.of_nat in *.
    all: rewrite Hd; reflexivity.
  - change (code "-"%char) with 45%N. cbv iota beta.
    rewrite (digits_uint_first u Hn). reflexivity.
Qed.

(** ** UTF-8 and the separators *)

Lemma utf8_decode_encode (s : str) (b : bytes) :
  utf8_encode s = Ok b -> utf8_decode b = Ok s.
Proof.
  revert b. induction s as [|c s IH]; intros b; simpl.
  - intros [= <-]. reflexivity.
  - destruct (utf8_encode_char c) as [bs|] eqn:Hc; [|discriminate].
    destruct (utf8_encode s) as [rest|e]; simpl; [|discriminate].
    intros [= <-]. rewrite (utf8_decode_encode_char c bs rest Hc), (IH rest eq_refl).
    reflexivity.
Qed.

Local Open Scope N_scope.

(** A byte below 128 in the encoding of a character is that character. *)
Lemma utf8_encode_char_ascii (c : N) (bs : bytes) (a : ascii) :
  utf8_encode_char c = Some bs -> a ∈ bs -> code a < 128 -> c = code a.
Proof.
  unfold utf8_encode_char.
  destruct (N.ltb_spec c 0x80).
  { intros [= <-] Ha%list_elem_of_singleton _. subst a. symmetry. apply code_byte_of. lia. }
  assert (Hhigh : forall x, 128 <= x < 256 -> a = byte_of x -> code a < 128 -> c = code a).
  { intros x Hx -> Hlt. rewrite code_byte_of in Hlt by lia. lia. }
  destruct (N.ltb_spec c 0x800).
  { intros [= <-] Ha. repeat (apply elem_of_cons in Ha as [Ha|Ha]);
      [..|inversion Ha]; (eapply Hhigh; [|exact Ha]); div_lia. }
  destruct (N.ltb_spec c 0x10000).
  { destruct (is_surrogate c); [discriminate|].
    intros [= <-] Ha. repeat (apply elem_of_cons in Ha as [Ha|Ha]);
      [..|inversion Ha]; (eapply Hhigh; [|exact Ha]); div_lia. }
  destruct (N.ltb_spec c 0x110000); [|discriminate].
  intros [= <-] Ha. repeat (apply elem_of_cons in Ha as [Ha|Ha]);
      [..|inversion Ha]; (eapply Hhigh; [|exact Ha]); div_lia.
Qed.

Lemma utf8_encode_not_elem (s : str) (b : bytes) (a : ascii) :
  utf8_encode s = Ok b -> code a < 128 -> code a ∉ s -> a ∉ b.
Proof.
  revert b. induction s as [|c s IH]; intros b; simpl.
  - intros [= <-] _ _ Ha. inversion Ha.
  - destruct (utf8_encode_char c) as [bs|] eqn:Hc; [|discriminate].
    destruct (utf8_encode s) as [rest|e]; simpl; [|discriminate].
    intros [= <-] Hlt Hn. apply not_elem_of_cons in Hn as [Hne Hn].
    apply not_elem_of_app. split; [|apply IH; auto].
    intros Ha. apply Hne. symmetry. exact (utf8_encode_char_ascii c bs a Hc Ha Hlt).
Qed.

(** Text below U+0080 is encoded byte for byte. *)
Lemma utf8_encode_ascii (s : str) :
  Forall (fun c => c < 128) s ->
  utf8_encode s = Ok (map byte_of s) /\ ascii_decode (map byte_of s) = Ok s.
Proof.
  induction 1 as [|c s Hc _ [IHe IHd]]; simpl; [split; reflexivity|].
  unfold utf8_encode_char. destruct (N.ltb_spec c 0x80); [|lia].
  rewrite IHe, IHd. simpl. rewrite code_byte_of by lia.
  destruct (N.ltb_spec c 0x80); [|lia]. split; reflexivity.
Qed.

Lemma numeric_ascii (c : N) : is_numeric c = true -> c < 128.
Proof. intros Hc%numeric_cases. lia. Qed.

Lemma numeric_not_sep (c : N) : is_numeric c = true -> c <> 58 /\ c <> 59.
Proof. intros Hc%numeric_cases. lia. Qed.
Local Close Scope N_scope.

(** ** Field assignment *)

(** C5, as the code has it.  Each of the four setters accepts text and
    bytes alike, whatever the variant of the record, stores the value in
    its field and leaves the other fields alone; it raises a type error
    exactly for a value that is neither text nor bytes. *)
Theorem setters_accept_text_and_bytes {F : Type} (r : record) (value : pyval F) :
  let stored (upd : field -> record) :=
    match value with
    | VStr s => Ok (upd (FStr s))
    | VBytes b => Ok (upd (FBytes b))
    | _ => Raise TypeError
    end in
  set_name value r
  = stored (fun x => {| cls := cls r; name := x; sequence := sequence r;
                        name2 := name2 r; quality := quality r |})
  /\ set_sequence value r
     = stored (fun x => {| cls := cls r; name := name r; sequence := x;
                           name2 := name2 r; quality := quality r |})
  /\ set_name2 value r
     = stored (fun x => {| cls := cls r; name := name r; sequence := sequence r;
                           name2 := x; quality := quality r |})
  /\ set_quality value r
     = stored (fun x => {| cls := cls r; name := name r; sequence := sequence r;
                           name2 := name2 r; quality := x |}).
Proof.
  destruct value; repeat split; reflexivity.
Qed.

(** C5 as stated fails: bytes are accepted by a field of a textual record
    and text by a field of a binary record. *)
Lemma setter_accepts_other_kind :
  set_sequence (VBytes (B "ACGT") : value) sample_text_record
  = Ok {| cls := Textual; name := FStr (U "@read1"); sequence := FBytes (B "ACGT");
          name2 := FStr (U "+"); quality := FStr (U "IIII") |}
  /\ set_name (VStr (U "@read2") : value) sample_bytes_record
     = Ok {| cls := Binary; name := FStr (U "@read2"); sequence := FBytes (B "ACGT");
             name2 := FBytes (B "+"); quality := FBytes (B "IIII") |}.
Proof.
  split; reflexivity.
Qed.

(** ** Tags: what [set_tag] and [set_tags] store *)

Lemma bind_Ok {A B} (m : result A) (f : A -> result B) (b : B) :
  m ≫= f = Ok b -> exists a, m = Ok a /\ f a = Ok b.
Proof.
  destruct m as [a|e]; simpl; [eauto | discriminate].
Qed.

Lemma set_name_frame {F} (value : pyval F) (r r' : record) :
  set_name value r = Ok r' ->
  cls r' = cls r /\ sequence r' = sequence r /\ name2 r' = name2 r
  /\ quality r' = quality r.
Proof.
  unfold set_name. destruct (as_field value); [|discriminate].
  intros [= <-]. repeat split.
Qed.

Section TagFacts.
Context {F : Type} `{PyFloat F}.
Implicit Types (r : record) (k : str) (v : pyval F) (kv : list (str * pyval F)).

Lemma set_tag_frame r k v r' :
  set_tag r k v = Ok r' ->
  cls r' = cls r /\ sequence r' = sequence r /\ name2 r' = name2 r
  /\ quality r' = quality r.
Proof.
  unfold set_tag, StrRecord.set_tag, BytesRecord.set_tag.
  destruct (cls r) eqn:Hcls; rewrite <- Hcls; intros Hs.
  - apply bind_Ok in Hs as (t & _ & Hs). exact (set_name_frame _ _ _ Hs).
  - apply bind_Ok in Hs as (t & _ & Hs). apply bind_Ok in Hs as (n & _ & Hs).
    exact (set_name_frame _ _ _ Hs).
Qed.

Lemma set_tags_frame r kv r' :
  set_tags r kv = Ok r' ->
  cls r' = cls r /\ sequence r' = sequence r /\ name2 r' = name2 r
  /\ quality r' = quality r.
Proof.
  unfold set_tags, StrRecord.set_tags, BytesRecord.set_tags.
  destruct (cls r) eqn:Hcls; rewrite <- Hcls; intros Hs.
  - apply bind_Ok in Hs as (t & _ & Hs). exact (set_name_frame _ _ _ Hs).
  - apply bind_Ok in Hs as (t & _ & Hs). apply bind_Ok in Hs as (n & _ & Hs).
    exact (set_name_frame _ _ _ Hs).
Qed.

(** C9. [set_tag] and [set_tags] assign the name only: when the call
    returns, the record has the sequence, second name and quality (and
    the class) it had before.  A call that raises has assigned
    nothing. *)
Theorem set_tag_changes_name_only r k v kv r' :
  set_tag r k v = Ok r' \/ set_tags r kv = Ok r' ->
  sequence r' = sequence r /\ name2 r' = name2 r /\ quality r' = quality r
  /\ cls r' = cls r.
Proof.
  intros [Hs|Hs]; [apply set_tag_frame in Hs | apply set_tags_frame in Hs];
    destruct Hs as (Hc & Hq & Hn & Hy); auto.
Qed.

End TagFacts.

Lemma set_tag_changes_name_only_witness :
  let r' := {| cls := Textual; name := FStr (U "@k:i:1;read1");
               sequence := FStr (U "ACGT"); name2 := FStr (U "+");
               quality := FStr (U "IIII") |} in
  set_tag sample_text_record (U "k") (VInt 1 : value) = Ok r'
  /\ sequence r' = sequence sample_text_record
  /\ name2 r' = name2 sample_text_record
  /\ quality r' = quality sample_text_record
  /\ cls r' = cls sample_text_record.
Proof.
  intros r'. split; [reflexivity|].
  apply (set_tag_changes_name_only sample_text_record (U "k") (VInt 1 : value) [] r').
  left. reflexivity.
Defined.


(** ** Tags: decoding a malformed name *)

Section Malformed.
Context {F : Type} `{PyFloat F}.

Lemma raises_bind {A B} (m : result A) (f : A -> result B) :
  (forall a, raises (f a)) -> raises (m ≫= f).
Proof.
  intros Hf. destruct m as [a|e]; simpl; [apply Hf | eexists; reflexivity].
Qed.

Lemma str_tags_of_malformed (segs : list str) :
  Exists (fun seg => well_formed_text seg = false) segs ->
  forall d, raises (StrRecord.tags_of (F:=F) segs d).
Proof.
  induction segs as [|seg segs IH]; intros Hex d; [inversion Hex|].
  apply Exists_cons in Hex as [Hbad|Hex]; simpl.
  - unfold well_formed_text in Hbad.
    destruct (split 58%N seg) as [|k [|t [|v [|w parts]]]];
      try (eexists; reflexivity).
    unfold StrRecord._str_itype_map.
    repeat (destruct (decide _) as [->|?]); try discriminate Hbad.
    eexists; reflexivity.
  - destruct (split 58%N seg) as [|k [|t [|v [|w parts]]]];
      try (eexists; reflexivity).
    destruct (StrRecord._str_itype_map t); [|eexists; reflexivity].
    apply raises_bind. intros x. apply IH, Hex.
Qed.

Lemma bytes_tags_of_malformed (segs : list bytes) :
  Exists (fun seg => well_formed_bytes seg = false) segs ->
  forall d, raises (BytesRecord.tags_of (F:=F) segs d).
Proof.
  induction segs as [|seg segs IH]; intros Hex d; [inversion Hex|].
  apply Exists_cons in Hex as [Hbad|Hex]; simpl.
  - unfold well_formed_bytes in Hbad.
    destruct (split ":"%char seg) as [|k [|t [|v [|w parts]]]];
      try (eexists; reflexivity).
    apply raises_bind. intros k'.
    unfold BytesRecord._bytes_itype_map.
    repeat (destruct (decide _) as [->|?]); try discriminate Hbad.
    eexists; reflexivity.
  - destruct (split ":"%char seg) as [|k [|t [|v [|w parts]]]];
      try (eexists; reflexivity).
    apply raises_bind. intros k'.
    destruct (BytesRecord._bytes_itype_map t); [|eexists; reflexivity].
    apply raises_bind. intros x. apply IH, Hex.
Qed.

(** A name with a malformed tag segment is never decoded: [get_tags]
    raises, for both variants. *)
Lemma get_tags_malformed_raises (r : record) :
  match cls r, name r with
  | Textual, FStr n => Exists (fun seg => well_formed_text seg = false) (text_segments n)
  | Binary, FBytes n => Exists (fun seg => well_formed_bytes seg = false) (bytes_segments n)
  | _, _ => True
  end ->
  raises (get_tags (F:=F) r).
Proof.
  unfold get_tags, StrRecord.get_tags, BytesRecord.get_tags.
  destruct (cls r), (name r) as [n|n]; intros Hex;
    try (eexists; reflexivity).
  - apply str_tags_of_malformed, Hex.
  - apply bytes_tags_of_malformed, Hex.
Qed.

End Malformed.

(** C4 on the code.  A segment without its two [':'] makes both [get_tags]
    and [get_tag] raise, as for the name [@bad_no_colon;orig].  A segment
    with an unknown type character makes [get_tags] raise a [KeyError],
    which [get_tag] takes for a missing key: it returns [None]. *)
Theorem get_tag_reads_unknown_type_as_absent :
  let named_text n := {| cls := Textual; name := FStr (U n); sequence := FStr (U "ACGT");
                         name2 := FStr (U "+"); quality := FStr (U "IIII") |} in
  let named_bytes n := {| cls := Binary; name := FBytes (B n); sequence := FBytes (B "ACGT");
                          name2 := FBytes (B "+"); quality := FBytes (B "IIII") |} in
  get_tags (F:=Z) (named_text "@bad_no_colon;orig") = Raise ValueError
  /\ get_tag (F:=Z) (named_text "@bad_no_colon;orig") (U "bad_no_colon") = Raise ValueError
  /\ get_tags (F:=Z) (named_bytes "@bad_no_colon;orig") = Raise ValueError
  /\ get_tag (F:=Z) (named_bytes "@bad_no_colon;orig") (U "bad_no_colon") = Raise ValueError
  /\ get_tags (F:=Z) (named_text "@k:X:v;orig") = Raise KeyError
  /\ get_tag (F:=Z) (named_text "@k:X:v;orig") (U "k") = Ok VNone
  /\ get_tags (F:=Z) (named_bytes "@k:X:v;orig") = Raise KeyError
  /\ get_tag (F:=Z) (named_bytes "@k:X:v;orig") (U "k") = Ok VNone.
Proof.
  repeat split; reflexivity.
Qed.

(** ** Reading back what [set_tag] wrote *)

Lemma sep_free_numeric (s : str) :
  Forall (fun c => is_numeric c = true) s -> sep_free s.
Proof.
  intros Hs. split; intros Hin; rewrite Forall_forall in Hs;
    apply Hs, numeric_not_sep in Hin; lia.
Qed.

Lemma sep_free_utf8 (s : str) (b : bytes) :
  utf8_encode s = Ok b -> sep_free s -> sep_free_bytes b.
Proof.
  intros He [H1 H2].
  split; (eapply utf8_encode_not_elem; [exact He| |]); simpl; auto; lia.
Qed.

Section RoundTrip.
Context {F : Type} `{PyFloat F}.

Lemma str_tags_of_acc (segs : list str) : forall d0 : gmap str (pyval F),
  StrRecord.tags_of segs d0 = (d ← StrRecord.tags_of segs ∅; Ok (d ∪ d0)).
Proof.
  induction segs as [|seg segs IH]; intros d0; simpl.
  - rewrite (left_id_L ∅ (∪)). reflexivity.
  - destruct (split 58%N seg) as [|k [|t [|v [|w parts]]]]; try reflexivity.
    destruct (StrRecord._str_itype_map t) as [conv|]; [|reflexivity].
    destruct (conv v) as [x|e]; simpl; [|reflexivity].
    rewrite (IH (<[k:=x]> d0)), (IH (<[k:=x]> ∅)).
    destruct (StrRecord.tags_of segs ∅) as [d|e]; simpl; [|reflexivity].
    rewrite (insert_union_singleton_l d0), (insert_union_singleton_l ∅).
    rewrite (right_id_L ∅ (∪)), (assoc_L (∪)). reflexivity.
Qed.

Lemma bytes_tags_of_acc (segs : list bytes) : forall d0 : gmap str (pyval F),
  BytesRecord.tags_of segs d0 = (d ← BytesRecord.tags_of segs ∅; Ok (d ∪ d0)).
Proof.
  induction segs as [|seg segs IH]; intros d0; simpl.
  - rewrite (left_id_L ∅ (∪)). reflexivity.
  - destruct (split ":"%char seg) as [|k [|t [|v [|w parts]]]]; try reflexivity.
    destruct (utf8_decode k) as [k'|e]; simpl; [|reflexivity].
    destruct (BytesRecord._bytes_itype_map t) as [conv|]; [|reflexivity].
    destruct (conv v) as [x|e]; simpl; [|reflexivity].
    rewrite (IH (<[k':=x]> d0)), (IH (<[k':=x]> ∅)).
    destruct (BytesRecord.tags_of segs ∅) as [d|e]; simpl; [|reflexivity].
    rewrite (insert_union_singleton_l d0), (insert_union_singleton_l ∅).
    rewrite (right_id_L ∅ (∪)), (assoc_L (∪)). reflexivity.
Qed.

(** One more tag in front of a text name. *)
Lemma str_tags_of_prepend (n k t v : str) conv (x : pyval F) d :
  sep_free k -> sep_free t -> sep_free v ->
  StrRecord._str_itype_map t = Some conv -> conv v = Ok x ->
  StrRecord.tags_of (text_segments n) ∅ = Ok d ->
  StrRecord.tags_of
    (text_segments (U "@" ++ (k ++ U ":" ++ t ++ U ":" ++ v) ++ U ";" ++ from1 n)) ∅
  = Ok (d ∪ {[k := x]}).
Proof.
  intros [Hk1 Hk2] [Ht1 Ht2] [Hv1 Hv2] Hconv Hx Hd.
  unfold text_segments at 1.
  change (from1 (U "@" ++ ?l)) with l.
  change (U ":") with [58%N]. change (U ";") with [59%N].
  cbn [app]. rewrite segments_cons.
  2:{ repeat (rewrite not_elem_of_app || rewrite not_elem_of_cons). repeat split; done. }
  fold (text_segments n). cbn [StrRecord.tags_of].
  rewrite split_three by assumption.
  rewrite Hconv, Hx. simpl.
  rewrite str_tags_of_acc, Hd. simpl.
  rewrite insert_empty. reflexivity.
Qed.
Lemma bytes_tags_of_prepend (n kb t vb : bytes) (k : str) conv (x : pyval F) d :
  sep_free_bytes kb -> sep_free_bytes t -> sep_free_bytes vb ->
  utf8_decode kb = Ok k ->
  BytesRecord._bytes_itype_map t = Some conv -> conv vb = Ok x ->
  BytesRecord.tags_of (bytes_segments n) ∅ = Ok d ->
  BytesRecord.tags_of
    (bytes_segments (B "@" ++ (kb ++ B ":" ++ t ++ B ":" ++ vb) ++ B ";" ++ from1 n)) ∅
  = Ok (d ∪ {[k := x]}).
Proof.
  intros [Hk1 Hk2] [Ht1 Ht2] [Hv1 Hv2] Hk Hconv Hx Hd.
  unfold bytes_segments at 1.
  change (from1 (B "@" ++ ?l)) with l.
  change (B ":") with [":"%char]. change (B ";") with [";"%char].
  cbn [app]. rewrite segments_cons.
  2:{ repeat (rewrite not_elem_of_app || rewrite not_elem_of_cons). repeat split; done. }
  fold (bytes_segments n). cbn [BytesRecord.tags_of].
  rewrite split_three by assumption.
  rewrite Hk. simpl. rewrite Hconv, Hx. simpl.
  rewrite bytes_tags_of_acc, Hd. simpl.
  rewrite insert_empty. reflexivity.
Qed.

Lemma sep_free_lit (c : N) : c <> 58%N -> c <> 59%N -> sep_free [c].
Proof. intros H1 H2. split; intros Hin%list_elem_of_singleton; congruence. Qed.

Lemma sep_free_bytes_lit (a : ascii) :
  a <> ":"%char -> a <> ";"%char -> sep_free_bytes [a].
Proof. intros H1 H2. split; intros Hin%list_elem_of_singleton; congruence. Qed.

Lemma str_mktag_shape (k : str) (v : pyval F) :
  storable Textual v ->
  exists t val conv,
    StrRecord._mktag k v = Ok (k ++ U ":" ++ t ++ U ":" ++ val)
    /\ sep_free t /\ sep_free val
    /\ StrRecord._str_itype_map t = Some conv /\ conv val = Ok v.
Proof.
  destruct v as [s|b|z|x|]; simpl; intros Hv; try contradiction.
  - exists (U "Z"), s, (fun v => Ok (VStr v)).
    repeat split; try apply Hv; try discriminate; apply sep_free_lit; discriminate.
  - exists (U "i"), (str_of_int z), (fun v => z ← int_of_str v; Ok (VInt z)).
    split; [reflexivity|]. split; [apply sep_free_lit; discriminate|].
    split; [apply sep_free_numeric, str_of_int_chars|].
    split; [reflexivity|]. rewrite int_of_str_of_int. reflexivity.
  - destruct Hv as [Hs Hx].
    exists (U "f"), (float_str x), (fun v => x ← float_of_str v; Ok (VFloat x)).
    split; [reflexivity|]. split; [apply sep_free_lit; discriminate|].
    split; [assumption|]. split; [reflexivity|]. rewrite Hx. reflexivity.
Qed.
Lemma is_ok_Ok {A} (x : result A) : is_ok x = true -> exists a, x = Ok a.
Proof. destruct x; [eauto | discriminate]. Qed.

Lemma bytes_mktag_shape (k : str) (v : pyval F) :
  key_ok Binary k -> storable Binary v ->
  exists kb t vb conv,
    utf8_encode k = Ok kb
    /\ BytesRecord._mktag k v = Ok (kb ++ B ":" ++ t ++ B ":" ++ vb)
    /\ sep_free_bytes kb /\ sep_free_bytes t /\ sep_free_bytes vb
    /\ BytesRecord._bytes_itype_map t = Some conv
    /\ conv vb = Ok (read_back Binary v).
Proof.
  intros [Hk Hkb] Hv. apply is_ok_Ok in Hkb as [kb Hkb].
  pose proof (sep_free_utf8 k kb Hkb Hk) as Hkb_free.
  unfold BytesRecord._mktag.
  destruct v as [s|b|z|x|]; simpl in Hv; try contradiction.
  - destruct Hv as [Hs Hsb]. apply is_ok_Ok in Hsb as [sb Hsb].
    exists kb, (B "Z"), sb, (fun v => Ok (VBytes v)).
    simpl. rewrite Hsb, Hkb. simpl.
    repeat split; try apply Hkb_free; try apply (sep_free_utf8 s sb Hsb Hs);
      try discriminate; apply sep_free_bytes_lit; discriminate.
  - exists kb, (B "Z"), b, (fun v => Ok (VBytes v)).
    simpl. rewrite Hkb. simpl.
    repeat split; try apply Hkb_free; try apply Hv;
      try discriminate; apply sep_free_bytes_lit; discriminate.
  - pose proof (str_of_int_chars z) as Hz.
    assert (Hascii : Forall (fun c => (c < 128)%N) (str_of_int z))
      by (eapply Forall_impl; [exact Hz|]; apply numeric_ascii).
    destruct (utf8_encode_ascii _ Hascii) as [He Hd].
    exists kb, (B "i"), (map byte_of (str_of_int z)),
      (fun v => z ← int_of_bytes v; Ok (VInt z)).
    simpl. rewrite He, Hkb. simpl.
    split; [reflexivity|]. split; [reflexivity|]. split; [assumption|].
    split; [apply sep_free_bytes_lit; discriminate|].
    split; [apply (sep_free_utf8 _ _ He), sep_free_numeric, Hz|].
    split; [reflexivity|].
    unfold int_of_bytes. rewrite Hd. simpl. rewrite int_of_str_of_int. reflexivity.
  - destruct Hv as (Hs & Hascii & Hx).
    destruct (utf8_encode_ascii _ Hascii) as [He Hd].
    exists kb, (B "f"), (map byte_of (float_str x)),
      (fun v => x ← float_of_bytes v; Ok (VFloat x)).
    simpl. rewrite He, Hkb. simpl.
    split; [reflexivity|]. split; [reflexivity|]. split; [assumption|].
    split; [apply sep_free_bytes_lit; discriminate|].
    split; [apply (sep_free_utf8 _ _ He), Hs|].
    split; [reflexivity|].
    unfold float_of_bytes. rewrite Hd. simpl. rewrite Hx. reflexivity.
Qed.

(** C1, as the code has it.  Take a record whose name decodes, with no
    tag under the key [k] yet.  Take a key without [':'] and [';'] which,
    for the binary variant, has a UTF-8 encoding (no surrogate).  Take a
    value that is: an integer; or a float whose printed form [str(x)] has
    no [':'] and [';'], is read back by [float()] as the same float and,
    for the binary variant, is ASCII; or a text without [':'] and [';']
    which, for the binary variant, has a UTF-8 encoding (no surrogate);
    or, for the binary variant only, bytes without [':'] and [';'].  Then
    [set_tag] succeeds, the tags of the new name are the old ones and the
    new one, and [get_tag] returns the value with its kind: an integer as
    an integer, a float as a float, a text as text from a textual record
    and as its UTF-8 bytes from a binary record, bytes as bytes. *)
Theorem set_tag_then_get_tag (r : record) (k : str) (v : pyval F)
    (d : gmap str (pyval F)) :
  get_tags r = Ok d -> d !! k = None ->
  key_ok (cls r) k -> storable (cls r) v ->
  exists r',
    set_tag r k v = Ok r'
    /\ get_tags r' = Ok (<[k := read_back (cls r) v]> d)
    /\ get_tag r' k = Ok (read_back (cls r) v).
Proof.
  intros Hd Hfresh Hk Hv.
  assert (Hlook : forall x : pyval F, (d ∪ {[k := x]}) !! k = Some x).
  { intros x. rewrite lookup_union_r by assumption. apply lookup_singleton_eq. }
  assert (Hins : forall x : pyval F, d ∪ {[k := x]} = <[k := x]> d).
  { intros x. symmetry. apply insert_union_singleton_r, Hfresh. }
  unfold get_tags, get_tag, set_tag in *.
  destruct (cls r) eqn:Hcls.
  - unfold StrRecord.get_tags in Hd.
    destruct (name r) as [n|n] eqn:Hn; [|discriminate].
    destruct (str_mktag_shape k v Hv) as (t & val & conv & Hm & Ht & Hval & Hc & Hx).
    pose proof (str_tags_of_prepend n k t val conv v d (proj1 Hk) Ht Hval Hc Hx Hd)
      as Hnew.
    set (new := U "@" ++ (k ++ U ":" ++ t ++ U ":" ++ val) ++ U ";" ++ from1 n) in *.
    exists (with_name (FStr new) r).
    split; [unfold StrRecord.set_tag; rewrite Hm, Hn; reflexivity|].
    change (cls (with_name (FStr new) r)) with (cls r). rewrite Hcls.
    unfold StrRecord.get_tag.
    change (StrRecord.get_tags (with_name (FStr new) r))
      with (StrRecord.tags_of (F:=F) (text_segments new) ∅).
    rewrite Hnew, Hlook, Hins. split; reflexivity.
  - unfold BytesRecord.get_tags in Hd.
    destruct (name r) as [n|n] eqn:Hn; [discriminate|].
    destruct (bytes_mktag_shape k v Hk Hv)
      as (kb & t & vb & conv & Hkb & Hm & Hkf & Ht & Hvb & Hc & Hx).
    pose proof (bytes_tags_of_prepend n kb t vb k conv _ d Hkf Ht Hvb
                  (utf8_decode_encode k kb Hkb) Hc Hx Hd) as Hnew.
    set (new := B "@" ++ (kb ++ B ":" ++ t ++ B ":" ++ vb) ++ B ";" ++ from1 n) in *.
    exists (with_name (FBytes new) r).
    split; [unfold BytesRecord.set_tag; rewrite Hm, Hn; reflexivity|].
    change (cls (with_name (FBytes new) r)) with (cls r). rewrite Hcls.
    unfold BytesRecord.get_tag.
    change (BytesRecord.get_tags (with_name (FBytes new) r))
      with (BytesRecord.tags_of (F:=F) (bytes_segments new) ∅).
    rewrite Hnew, Hlook, Hins. split; reflexivity.
Qed.
End RoundTrip.

Lemma set_tag_then_get_tag_witness :
  exists r',
    set_tag sample_bytes_record (U "k") (VFloat 7 : value) = Ok r'
    /\ get_tags r' = Ok (<[U "k" := read_back Binary (VFloat 7 : value)]> ∅)
    /\ get_tag r' (U "k") = Ok (read_back Binary (VFloat 7 : value)).
Proof.
  apply (set_tag_then_get_tag sample_bytes_record (U "k") (VFloat 7 : value) ∅).
  - reflexivity.
  - reflexivity.
  - split; [apply sep_free_lit; discriminate | reflexivity].
  - split; [|split; [|reflexivity]].
    + split; apply (bool_decide_unpack _); vm_compute; exact I.
    + apply (bool_decide_unpack _); vm_compute; exact I.
Defined.

(** C1 as stated fails.  A text value with a colon is written and then
    cannot be read; under a key that the name already carries, the older
    tag is the one read; a text with a lone surrogate is not written to a
    binary record, nor are bytes to a textual record. *)
Lemma set_tag_then_get_tag_differs :
  (r ← set_tag sample_text_record (U "ts") (VStr (U "12:30") : value);
   get_tag r (U "ts")) = Raise ValueError
  /\ (r ← set_tag sample_bytes_record (U "ts") (VBytes (B "12:30") : value);
      get_tag r (U "ts")) = Raise ValueError
  /\ (r ← set_tag tagged_text_record (U "k") (VInt 2 : value);
      get_tag r (U "k")) = Ok (VInt 1)
  /\ set_tag sample_bytes_record (U "k") (VStr [55296%N] : value)
     = Raise UnicodeEncodeError
  /\ set_tag sample_text_record (U "k") (VBytes (B "x") : value)
     = Raise AttributeError.
Proof.
  repeat split; reflexivity.
Qed.

(** ** Average quality *)

Lemma sum_scores (bs : bytes) :
  sum (map (fun a => int8 a - 33) bs) = sum (map int8 bs) - 33 * Z.of_nat (length bs).
Proof.
  induction bs as [|a bs IH]; simpl; [reflexivity|].
  unfold sum in *. simpl. rewrite IH. lia.
Qed.

Lemma average_quality_eq (r : record) (data : bytes) :
  quality_bytes r = Ok data ->
  0 < record_len r <= Z.of_nat (length data) ->
  average_quality r
  = Ok (Z.quot (sum (map int8 (take (Z.to_nat (record_len r)) data))) (record_len r) - 33).
Proof.
  intros Hq [Hpos Hle].
  assert (Hrun : forall d : result bytes, d = Ok data ->
    (d ≫= fun data => np_int8 data (record_len r) ≫= fun a =>
       np_mean_int a ≫= fun m => Ok (m - 33))
    = Ok (Z.quot (sum (map int8 (take (Z.to_nat (record_len r)) data)))
                 (record_len r) - 33)).
  { intros d ->. simpl. unfold np_int8.
    destruct (Z.ltb_spec (Z.of_nat (length data)) (record_len r)) as [?|_]; [lia|].
    simpl. unfold np_mean_int.
    assert (Hn : length (map int8 (take (Z.to_nat (record_len r)) data))
                 = Z.to_nat (record_len r))
      by (rewrite length_map, length_take; lia).
    destruct (map int8 (take (Z.to_nat (record_len r)) data)) as [|x a] eqn:Ha.
    - simpl in Hn. lia.
    - rewrite Hn. simpl. do 3 f_equal. lia. }
  unfold average_quality, StrRecord.average_quality, BytesRecord.average_quality.
  unfold quality_bytes in Hq.
  destruct (cls r), (quality r); try discriminate Hq; apply Hrun; exact Hq.
Qed.

(** C8, as the code has it.  When the quality has at least [len(self)]
    bytes and the sequence is not empty, [average_quality] takes the first
    [len(self)] bytes of the quality as signed 8-bit integers, truncates
    their mean towards zero and subtracts 33 from it.  When the mean of the
    bytes is at least 33, as with valid Phred+33 characters, this is the
    truncated mean of the scores.  For the quality [IIII] over a sequence
    of four bases the result is 40. *)
Theorem average_quality_truncates_then_subtracts (r : record) (data : bytes) :
  quality_bytes r = Ok data ->
  0 < record_len r <= Z.of_nat (length data) ->
  let n := record_len r in
  let a := map int8 (take (Z.to_nat n) data) in
  average_quality r = Ok (Z.quot (sum a) n - 33)
  /\ (33 * n <= sum a -> average_quality r = Ok (truncated_mean_score data n))
  /\ average_quality sample_text_record = Ok 40
  /\ average_quality sample_bytes_record = Ok 40.
Proof.
  intros Hq Hlen n a.
  pose proof (average_quality_eq r data Hq Hlen) as Heq. fold n in Heq. fold a in Heq.
  split; [exact Heq|]. split; [|split; reflexivity].
  intros Hmean. rewrite Heq. f_equal.
  unfold truncated_mean_score, phred_scores. rewrite sum_scores.
  rewrite length_take. fold n.
  replace (Z.of_nat (Nat.min (Z.to_nat n) (length data))) with n by lia.
  fold a.
  rewrite !Z.quot_div_nonneg by lia.
  replace (sum a - 33 * n) with (sum a + (-33) * n) by lia.
  rewrite Z.div_add by lia. lia.
Qed.

Lemma average_quality_truncates_then_subtracts_witness :
  let n := record_len sample_bytes_record in
  let a := map int8 (take (Z.to_nat n) (B "IIII")) in
  average_quality sample_bytes_record = Ok (Z.quot (sum a) n - 33)
  /\ (33 * n <= sum a
      -> average_quality sample_bytes_record = Ok (truncated_mean_score (B "IIII") n))
  /\ average_quality sample_text_record = Ok 40
  /\ average_quality sample_bytes_record = Ok 40.
Proof.
  apply (average_quality_truncates_then_subtracts sample_bytes_record (B "IIII")).
  - reflexivity.
  - vm_compute. split; [reflexivity | discriminate].
Defined.

(** C8 as stated fails.  For a read of one base of quality [!], with the
    newlines the reader leaves in the fields, the scores are 0 and -23 and
    their truncated mean is -11, but the result is -12: the mean of the
    bytes, 21.5, is truncated before 33 is subtracted.  And a quality
    shorter than the sequence is an error, not a mean. *)
Lemma average_quality_is_not_truncated_mean_score :
  let r := {| cls := Textual; name := FStr (U "@read" ++ [10%N]);
              sequence := FStr (U "A" ++ [10%N]); name2 := FStr (U "+" ++ [10%N]);
              quality := FStr (U "!" ++ [10%N]) |} in
  let short := {| cls := Binary; name := FBytes (B "@read");
                  sequence := FBytes (B "ACGT"); name2 := FBytes (B "+");
                  quality := FBytes (B "II") |} in
  quality_bytes r = Ok [byte_of 33; byte_of 10]
  /\ phred_scores [byte_of 33; byte_of 10] (record_len r) = [0; -23]
  /\ truncated_mean_score [byte_of 33; byte_of 10] (record_len r) = -11
  /\ average_quality r = Ok (-12)
  /\ average_quality short = Raise ValueError.
Proof.
  repeat split; reflexivity.
Qed.

(** ** The reader *)

Lemma record_grouper_short {A} (l : list A) :
  (length l < 4)%nat -> record_grouper l = [].
Proof.
  destruct l as [|a [|b [|c [|d l]]]]; simpl; intros; try reflexivity; lia.
Qed.

Lemma record_grouper_spec {A} (n r : nat) : forall l : list A,
  length l = (4 * n + r)%nat -> (r < 4)%nat ->
  length (record_grouper l) = n /\
  forall j, (j < n)%nat ->
    exists a b c d,
      l !! (4 * j)%nat = Some a /\ l !! (4 * j + 1)%nat = Some b /\
      l !! (4 * j + 2)%nat = Some c /\ l !! (4 * j + 3)%nat = Some d /\
      record_grouper l !! j = Some (a, b, c, d).
Proof.
  induction n as [|n IH]; intros l Hlen Hr.
  - rewrite record_grouper_short by lia. split; [reflexivity|]. intros j Hj. lia.
  - destruct l as [|a [|b [|c [|d l]]]]; simpl in Hlen; try lia.
    destruct (IH l) as [IHlen IHnth]; [lia|assumption|].
    split; [simpl; lia|].
    intros [|j] Hj.
    + exists a, b, c, d. repeat split; reflexivity.
    + destruct (IHnth j) as (a' & b' & c' & d' & Ha & Hb & Hc & Hd & Hg); [lia|].
      exists a', b', c', d'.
      replace (4 * S j)%nat with (S (S (S (S (4 * j))))) by lia.
      simpl. repeat split; assumption.
Qed.

(** C2. A source of [4 * n + r] lines with [r < 4] yields exactly [n]
    records, in the order of the source: record [j] has line [4 * j] as
    its name, line [4 * j + 1] as its sequence, line [4 * j + 2] as its
    second name and line [4 * j + 3] as its quality, and it is of the
    variant that goes with the mode.  When [0 < r] the last [r] lines are
    dropped, and the iteration is a total function: dropping is not an
    error. *)
Theorem reader_groups_lines_by_four (rd : Reader) (n r : nat) :
  length (lines rd) = (4 * n + r)%nat -> (r < 4)%nat ->
  length (Reader_iter rd) = n /\
  forall j, (j < n)%nat ->
    exists x,
      Reader_iter rd !! j = Some x
      /\ lines rd !! (4 * j)%nat = Some (name x)
      /\ lines rd !! (4 * j + 1)%nat = Some (sequence x)
      /\ lines rd !! (4 * j + 2)%nat = Some (name2 x)
      /\ lines rd !! (4 * j + 3)%nat = Some (quality x)
      /\ cls x = if decide (_mode rd = U "r") then Textual else Binary.
Proof.
  intros Hlen Hr.
  destruct (record_grouper_spec n r (lines rd) Hlen Hr) as [Hn Hnth].
  unfold Reader_iter. split; [rewrite length_map; exact Hn|].
  intros j Hj. destruct (Hnth j Hj) as (a & b & c & d & Ha & Hb & Hc & Hd & Hg).
  exists (mk_record (record_type (_mode rd)) (a, b, c, d)).
  split; [rewrite list_lookup_fmap, Hg; reflexivity|].
  repeat split; assumption || reflexivity.
Qed.

Lemma reader_groups_lines_by_four_witness :
  length (Reader_iter six_line_reader) = 1%nat /\
  forall j, (j < 1)%nat ->
    exists x,
      Reader_iter six_line_reader !! j = Some x
      /\ lines six_line_reader !! (4 * j)%nat = Some (name x)
      /\ lines six_line_reader !! (4 * j + 1)%nat = Some (sequence x)
      /\ lines six_line_reader !! (4 * j + 2)%nat = Some (name2 x)
      /\ lines six_line_reader !! (4 * j + 3)%nat = Some (quality x)
      /\ cls x = if decide (_mode six_line_reader = U "r") then Textual else Binary.
Proof.
  apply (reader_groups_lines_by_four six_line_reader 1 2); [reflexivity | lia].
Defined.

(** The class of the records is chosen by comparing the mode with ['r']. *)
Lemma Reader_iter_cls (rd : Reader) :
  Forall (fun r => cls r = record_type (_mode rd)) (Reader_iter rd).
Proof.
  unfold Reader_iter. apply Forall_fmap, Forall_forall.
  intros [[[a b] c] d] _. reflexivity.
Qed.

(** The fields of the records are lines of the source. *)
Lemma Reader_iter_fields (rd : Reader) :
  Forall (fun r => Forall (fun x => x ∈ lines rd) (_data r)) (Reader_iter rd).
Proof.
  pose proof (Nat.div_mod_eq (length (lines rd)) 4) as Hd.
  pose proof (Nat.mod_upper_bound (length (lines rd)) 4 ltac:(lia)) as Hm.
  destruct (record_grouper_spec _ _ (lines rd) Hd Hm) as [Hn Hnth].
  unfold Reader_iter. apply Forall_fmap, Forall_lookup. intros j g Hg.
  assert (Hj : (j < length (lines rd) / 4)%nat)
    by (rewrite <- Hn; eapply lookup_lt_Some; exact Hg).
  destruct (Hnth j Hj) as (a & b & c & d & Ha & Hb & Hc & Hd' & Hg').
  rewrite Hg in Hg'. injection Hg' as ->. simpl.
  repeat constructor; eapply list_elem_of_lookup_2; eassumption.
Qed.

(** C3. A reader is in the text mode ['r'] or in the binary mode ['rb'].
    When the mode is the binary mode, every record yielded is a
    binary-variant record and its four fields are bytes; in the other
    mode every record is a textual-variant record and its four fields are
    text.  The six lines of the sample read in the binary mode give one
    binary-variant record of bytes, and read in the text mode one
    textual-variant record of text. *)
Theorem reader_variant_by_mode (rd : Reader) :
  (_mode rd = U "r" \/ _mode rd = U "rb")
  /\ Forall (fun r => cls r = if decide (_mode rd = U "rb") then Binary else Textual)
            (Reader_iter rd)
  /\ Forall (fun r => Forall (fun x => is_text x = bool_decide (_mode rd <> U "rb"))
                              (_data r))
            (Reader_iter rd)
  /\ Reader_iter six_line_bytes_reader
     = [ {| cls := Binary; name := FBytes (B "@read1"); sequence := FBytes (B "ACGT");
            name2 := FBytes (B "+"); quality := FBytes (B "IIII") |} ]
  /\ Reader_iter six_line_reader
     = [ {| cls := Textual; name := FStr (U "@read1"); sequence := FStr (U "ACGT");
            name2 := FStr (U "+"); quality := FStr (U "IIII") |} ].
Proof.
  split; [destruct rd; [left|right]; reflexivity|].
  split; [|split; [|split; reflexivity]].
  - eapply Forall_impl; [exact (Reader_iter_cls rd)|].
    intros r ->. destruct rd; reflexivity.
  - eapply Forall_impl; [exact (Reader_iter_fields rd)|].
    intros r Hr. eapply Forall_impl; [exact Hr|].
    intros x Hx. destruct rd; simpl in Hx;
      apply list_elem_of_fmap in Hx as (y & -> & _); reflexivity.
Qed.

(** ** Length estimation *)

Lemma fill_spec (left : nat) : forall (i : nat) (records : list record) (data : list Z),
  length data = (i + left)%nat ->
  fill left i records data
  = (take i data ++ map seq_length (take left records), drop left records).
Proof.
  induction left as [|left IH]; intros i records data Hlen; simpl.
  - rewrite app_nil_r, take_ge by lia. reflexivity.
  - destruct records as [|r rest]; simpl.
    + rewrite app_nil_r. reflexivity.
    + rewrite IH by (rewrite length_insert; lia).
      rewrite (take_S_r _ _ (len (sequence r) - 1))
        by (apply list_lookup_insert_eq; lia).
      rewrite take_insert_ge by lia.
      rewrite <- app_assoc. reflexivity.
Qed.

(** *** The histogram of [np.unique] *)

Lemma insert_sorted_perm (x : Z) (l : list Z) : insert_sorted x l ≡ₚ x :: l.
Proof.
  induction l as [|y l IH]; simpl; [reflexivity|].
  destruct (x <=? y); [reflexivity|].
  rewrite IH. apply Permutation_swap.
Qed.

Lemma sort_perm (l : list Z) : sort l ≡ₚ l.
Proof.
  induction l as [|x l IH]; simpl; [reflexivity|].
  rewrite insert_sorted_perm, IH. reflexivity.
Qed.








Lemma estimate_sequence_length_eq (empty : list Z) (rd : Reader) :
  length empty = sample_size ->
  let data := map seq_length (take sample_size (Reader_iter rd)) in
  estimate_sequence_length empty rd
  = ({| mean := np_mean data; std := np_std data;
        histogram := np_unique data |},
     drop sample_size (Reader_iter rd)).
Proof.
  intros Hlen data. unfold estimate_sequence_length.
  rewrite fill_spec by (rewrite Hlen; reflexivity).
  rewrite take_0. reflexivity.
Qed.

(** *** Mean and standard deviation *)









(** ** The tag generator *)

Lemma record_tags_flat (ts : list Tag) (r : record) :
  record_tags ts r = flat_map (tag_tuples r) ts.
Proof.
  unfold record_tags.
  enough (Hgen : forall acc,
    fold_left (fun acc tag => let '(s, q) := extract_tag r tag in acc ++ [s; q]) ts acc
    = acc ++ flat_map (tag_tuples r) ts) by exact (Hgen []).
  induction ts as [|t ts IH]; intros acc; simpl.
  - rewrite app_nil_r. reflexivity.
  - rewrite IH, <- app_assoc. reflexivity.
Qed.

(** C7, as the code has it.  For every record of the reader, in order, the
    generator yields one flat list holding, for each descriptor in
    configuration order, the sequence tuple and then the quality tuple,
    both with type code [Z].  A slice is never an error: for bounds
    [a <= a + n] it is [n] items from position [a] on, or as many as the
    field has, and it is never longer than the field.  For the sequence
    [ACGTACGT] the range 2 to 5 is [GTA]. *)
Theorem tag_generator_output (g : TagGenerator) :
  TagGenerator_iter g
  = map (fun r => flat_map (tag_tuples r) (tags g)) (Reader_iter (reader g))
  /\ (forall (a n : nat) (l : str),
        py_slice (Z.of_nat a) (Z.of_nat a + Z.of_nat n) l = take n (drop a l))
  /\ (forall (a n : nat) (l : bytes),
        py_slice (Z.of_nat a) (Z.of_nat a + Z.of_nat n) l = take n (drop a l))
  /\ (forall start stop x, len (slice start stop x) <= len x)
  /\ TagGenerator_iter sample_tag_generator
     = [[ (U "BC", FStr (U "GTA"), U "Z"); (U "QB", FStr (U "III"), U "Z") ]].
Proof.
  split; [|split; [|split; [|split]]].
  - unfold TagGenerator_iter. apply map_ext. intros r. apply record_tags_flat.
  - intros a n l. apply py_slice_nat.
  - intros a n l. apply py_slice_nat.
  - intros start stop [s|b]; simpl; apply Nat2Z.inj_le, py_slice_length.
  - reflexivity.
Qed.

(** C7 as stated fails on its example: the range 2 to 5 of [ACGTACGT] is
    [GTA], not [CGT]. *)
Lemma tag_generator_example_is_not_CGT :
  TagGenerator_iter sample_tag_generator
  <> [[ (U "BC", FStr (U "CGT"), U "Z"); (U "QB", FStr (U "III"), U "Z") ]].
Proof.
  discriminate.
Qed.

(** * Further properties *)

(** ** UTF-8: encoding what was decoded *)

Local Open Scope N_scope.

Lemma byte_of_code (a : ascii) : byte_of (code a) = a.
Proof. apply ascii_N_embedding. Qed.

Lemma code_bound (a : ascii) : code a < 256.
Proof. apply N_ascii_bounded. Qed.

Ltac bool_facts :=
  repeat match goal with
  | H : andb _ _ = true |- _ => apply andb_true_iff in H as [? ?]
  | H : negb _ = true |- _ => apply negb_true_iff in H
  | H : N.leb _ _ = true |- _ => apply N.leb_le in H
  | H : N.ltb _ _ = true |- _ => apply N.ltb_lt in H
  | H : N.leb _ _ = false |- _ => apply N.leb_gt in H
  | H : N.ltb _ _ = false |- _ => apply N.ltb_ge in H
  end.

Lemma utf8_decode_step (a0 : ascii) (t0 : bytes) (s : str) :
  utf8_decode (a0 :: t0) = Ok s ->
  exists c bs rest s',
    a0 :: t0 = bs ++ rest /\ s = c :: s' /\ utf8_encode_char c = Some bs
    /\ utf8_decode rest = Ok s' /\ (length rest < length (a0 :: t0))%nat.
Proof.
  cbn [utf8_decode]. pose proof (code_bound a0) as Hb0.
  destruct (code a0 <? 0x80) eqn:E1.
  { intros (s' & Hs' & [= <-])%bind_Ok.
    exists (code a0), [a0], t0, s'. repeat split; auto.
    unfold utf8_encode_char. rewrite E1, byte_of_code. reflexivity. }
  destruct ((0xC2 <=? code a0) && (code a0 <=? 0xDF)) eqn:E2.
  { destruct t0 as [|a1 t1]; [discriminate|]. unfold is_cont.
    pose proof (code_bound a1) as Hb1.
    destruct ((0x80 <=? code a1) && (code a1 <=? 0xBF)) eqn:E3; [|discriminate].
    intros (s' & Hs' & [= <-])%bind_Ok. bool_facts.
    set (c := (code a0 - 192) * 64 + (code a1 - 128)).
    exists c, [a0; a1], t1, s'.
    repeat split; auto; [|simpl; lia].
    unfold utf8_encode_char.
    destruct (N.ltb_spec c 0x80); [unfold c in *; lia|].
    destruct (N.ltb_spec c 0x800); [|unfold c in *; lia].
    replace (192 + c / 64) with (code a0) by (unfold c; div_lia).
    replace (128 + c mod 64) with (code a1) by (unfold c; div_lia).
    rewrite !byte_of_code. reflexivity. }
  destruct ((0xE0 <=? code a0) && (code a0 <=? 0xEF)) eqn:E3.
  { destruct t0 as [|a1 [|a2 t2]]; try discriminate. unfold is_cont.
    pose proof (code_bound a1) as Hb1. pose proof (code_bound a2) as Hb2.
    set (c := (code a0 - 224) * 4096 + (code a1 - 128) * 64 + (code a2 - 128)).
    destruct (_ && _ && _ && _) eqn:E4; [|discriminate].
    intros (s' & Hs' & [= <-])%bind_Ok. bool_facts.
    exists c, [a0; a1; a2], t2, s'.
    repeat split; auto; [|simpl; lia].
    unfold utf8_encode_char.
    destruct (N.ltb_spec c 0x80); [lia|].
    destruct (N.ltb_spec c 0x800); [lia|].
    destruct (N.ltb_spec c 0x10000); [|unfold c in *; lia].
    match goal with H : is_surrogate c = false |- _ => rewrite H end.
    replace (224 + c / 4096) with (code a0) by (unfold c; div_lia).
    replace (128 + (c / 64) mod 64) with (code a1) by (unfold c; div_lia).
    replace (128 + c mod 64) with (code a2) by (unfold c; div_lia).
    rewrite !byte_of_code. reflexivity. }
  destruct ((0xF0 <=? code a0) && (code a0 <=? 0xF4)) eqn:E4; [|discriminate].
  destruct t0 as [|a1 [|a2 [|a3 t3]]]; try discriminate. unfold is_cont.
  pose proof (code_bound a1) as Hb1. pose proof (code_bound a2) as Hb2.
  pose proof (code_bound a3) as Hb3.
  set (c := (code a0 - 240) * 262144 + (code a1 - 128) * 4096
            + (code a2 - 128) * 64 + (code a3 - 128)).
  destruct (_ && _ && _ && _ && _) eqn:E5; [|discriminate].
  intros (s' & Hs' & [= <-])%bind_Ok. bool_facts.
  exists c, [a0; a1; a2; a3], t3, s'.
  repeat split; auto; [|simpl; lia].
  unfold utf8_encode_char.
  destruct (N.ltb_spec c 0x80); [lia|].
  destruct (N.ltb_spec c 0x800); [lia|].
  destruct (N.ltb_spec c 0x10000); [lia|].
  destruct (N.ltb_spec c 0x110000); [|lia].
  replace (240 + c / 262144) with (code a0) by (unfold c; div_lia).
  replace (128 + (c / 4096) mod 64) with (code a1) by (unfold c; div_lia).
  replace (128 + (c / 64) mod 64) with (code a2) by (unfold c; div_lia).
  replace (128 + c mod 64) with (code a3) by (unfold c; div_lia).
  rewrite !byte_of_code. reflexivity.
Qed.

Lemma utf8_encode_decode (b : bytes) : forall s,
  utf8_decode b = Ok s -> utf8_encode s = Ok b.
Proof.
  remember (length b) as n eqn:Hn. revert b Hn.
  induction n as [n IH] using lt_wf_ind. intros b Hn s Hd.
  destruct b as [|a0 t0].
  - simpl in Hd. injection Hd as <-. reflexivity.
  - apply utf8_decode_step in Hd as (c & bs & rest & s' & Hb & -> & Hc & Hrest & Hlt).
    simpl. rewrite Hc, (IH (length rest) ltac:(lia) rest eq_refl s' Hrest), Hb.
    reflexivity.
Qed.

Local Close Scope N_scope.

(** ** Rendering a record, and the reader *)

Lemma join_bytes_raises (items : list field) e :
  join_bytes items = Raise e -> e = TypeError.
Proof.
  induction items as [|[s|b] items IH]; simpl; try congruence.
  destruct (join_bytes items); simpl; [discriminate|]. intros [= <-]. auto.
Qed.

Lemma join_str_raises (items : list field) e :
  join_str items = Raise e -> e = TypeError.
Proof.
  induction items as [|[s|b] items IH]; simpl; try congruence.
  destruct (join_str items); simpl; [discriminate|]. intros [= <-]. auto.
Qed.

Lemma join_bytes_Ok (items : list field) b :
  join_bytes items = Ok b ->
  Forall (fun x => is_text x = false) items /\ (items <> [] -> join_str items = Raise TypeError).
Proof.
  revert b. induction items as [|[s|x] items IH]; simpl; intros b Hb.
  - split; [constructor|congruence].
  - discriminate.
  - destruct (join_bytes items) as [tl|e] eqn:Htl; [|discriminate].
    destruct (IH tl eq_refl) as [Hall _]. split; [constructor; auto|reflexivity].
Qed.

Lemma join_str_Ok (items : list field) s :
  join_str items = Ok s ->
  Forall (fun x => is_text x = true) items /\ (items <> [] -> join_bytes items = Raise TypeError).
Proof.
  revert s. induction items as [|[x|b] items IH]; simpl; intros s Hs.
  - split; [constructor|congruence].
  - destruct (join_str items) as [tl|e] eqn:Htl; [|discriminate].
    destruct (IH tl eq_refl) as [Hall _]. split; [constructor; auto|reflexivity].
  - discriminate.
Qed.

Theorem bytes_rendering_decodes_to_str (r : record) (b : bytes) :
  __bytes__ r = Ok b -> __str__ r = utf8_decode b.
Proof.
  unfold __bytes__, __str__.
  destruct (join_bytes (_data r)) as [jb|e] eqn:Hb.
  - intros [= ->]. destruct (join_bytes_Ok _ _ Hb) as [_ Hs].
    rewrite Hs by discriminate. reflexivity.
  - rewrite (join_bytes_raises _ _ Hb).
    destruct (join_str (_data r)) as [js|e'] eqn:Hs; simpl; [|discriminate].
    intros He. symmetry. apply utf8_decode_encode, He.
Qed.

(** X1. The two renderings of a record agree: the bytes rendering, read
    as UTF-8, is the text rendering, and the text rendering, written as
    UTF-8, is the bytes rendering.  Each is defined exactly when the other
    is and its text can be coded. *)
Theorem renderings_agree (r : record) (b : bytes) (s : str) :
  __bytes__ r = Ok b /\ utf8_decode b = Ok s
  <-> __str__ r = Ok s /\ utf8_encode s = Ok b.
Proof.
  unfold __bytes__, __str__. split.
  - intros [Hb Hd]. split; [|apply utf8_encode_decode, Hd].
    destruct (join_bytes (_data r)) as [jb|e] eqn:Hjb.
    + injection Hb as ->. destruct (join_bytes_Ok _ _ Hjb) as [_ Hs].
      rewrite Hs by discriminate. exact Hd.
    + rewrite (join_bytes_raises _ _ Hjb) in Hb.
      destruct (join_str (_data r)) as [js|e'] eqn:Hjs; simpl in Hb; [|discriminate].
      rewrite (utf8_decode_encode _ _ Hb) in Hd. congruence.
  - intros [Hs He]. split; [|apply utf8_decode_encode, He].
    destruct (join_str (_data r)) as [js|e] eqn:Hjs.
    + injection Hs as ->. destruct (join_str_Ok _ _ Hjs) as [_ Hb].
      rewrite Hb by discriminate. exact He.
    + rewrite (join_str_raises _ _ Hjs) in Hs.
      destruct (join_bytes (_data r)) as [jb|e'] eqn:Hjb; simpl in Hs; [|discriminate].
      rewrite (utf8_encode_decode _ _ Hs) in He. congruence.
Qed.

Lemma join_bytes_text (items : list field) :
  Exists (fun x => is_text x = true) items -> join_bytes items = Raise TypeError.
Proof.
  induction 1 as [[s|b] items Hx|[s|b] items _ IH]; simpl; try reflexivity; try discriminate.
  rewrite IH. reflexivity.
Qed.

Lemma join_str_bytes (items : list field) :
  Exists (fun x => is_text x = false) items -> join_str items = Raise TypeError.
Proof.
  induction 1 as [[s|b] items Hx|[s|b] items _ IH]; simpl; try reflexivity; try discriminate.
  rewrite IH. reflexivity.
Qed.

(** X2. A record that holds both text and bytes is never rendered: both
    [bytes(record)] and [str(record)] raise a type error. *)
Theorem mixed_record_is_not_rendered (r : record) :
  Exists (fun x => is_text x = true) (_data r) ->
  Exists (fun x => is_text x = false) (_data r) ->
  __bytes__ r = Raise TypeError /\ __str__ r = Raise TypeError.
Proof.
  intros Ht Hb. unfold __bytes__, __str__.
  rewrite (join_bytes_text _ Ht), (join_str_bytes _ Hb). split; reflexivity.
Qed.

Lemma render_text_groups (c : variant) (n : nat) : forall (ls : list str) (k : nat),
  length ls = (4 * n + k)%nat -> (k < 4)%nat ->
  exists ss,
    Forall2 (fun r s => __str__ r = Ok s)
            (map (mk_record c) (record_grouper (FStr <$> ls))) ss
    /\ concat ss = concat (take (4 * n) ls).
Proof.
  induction n as [|n IH]; intros ls k Hlen Hk.
  - exists []. rewrite record_grouper_short by (rewrite length_fmap; lia).
    split; [constructor|reflexivity].
  - destruct ls as [|a [|b [|c' [|d ls]]]]; simpl in Hlen; try lia.
    destruct (IH ls k) as (ss & Hss & Hcat); [lia|assumption|].
    exists ((a ++ b ++ c' ++ d) :: ss). split.
    + simpl. constructor; [|exact Hss].
      unfold __str__. simpl. rewrite app_nil_r. reflexivity.
    + replace (4 * S n)%nat with (S (S (S (S (4 * n))))) by lia.
      simpl. rewrite Hcat, <- !app_assoc. reflexivity.
Qed.

(** X3. Writing the records back gives the text back: for a source of
    text lines, the text renderings of the records of the reader, one
    after the other, are the lines of the complete groups of four, in
    order and with nothing between them. *)
Theorem reader_then_str_gives_text_back (ls : list str) (n k : nat) :
  length ls = (4 * n + k)%nat -> (k < 4)%nat ->
  exists ss,
    Forall2 (fun r s => __str__ r = Ok s) (Reader_iter (TextReader ls)) ss
    /\ concat ss = concat (take (4 * n) ls).
Proof.
  intros Hlen Hk. unfold Reader_iter. simpl.
  apply (render_text_groups _ n ls k Hlen Hk).
Qed.

Lemma record_grouper_app {A} (n : nat) : forall (l1 l2 : list A),
  length l1 = (4 * n)%nat ->
  record_grouper (l1 ++ l2) = record_grouper l1 ++ record_grouper l2.
Proof.
  induction n as [|n IH]; intros l1 l2 Hlen.
  - destruct l1; [reflexivity|discriminate].
  - destruct l1 as [|a [|b [|c [|d l1]]]]; simpl in Hlen; try lia.
    simpl. rewrite IH by lia. reflexivity.
Qed.

(** X4. A source made of two files: when the first has a multiple of four
    lines, the records are those of the first file followed by those of
    the second, in the text mode and in the binary mode. *)
Theorem reader_of_two_sources (l1 l2 : list str) (b1 b2 : list bytes) (n m : nat) :
  length l1 = (4 * n)%nat -> length b1 = (4 * m)%nat ->
  Reader_iter (TextReader (l1 ++ l2))
  = Reader_iter (TextReader l1) ++ Reader_iter (TextReader l2)
  /\ Reader_iter (BytesReader (b1 ++ b2))
     = Reader_iter (BytesReader b1) ++ Reader_iter (BytesReader b2).
Proof.
  intros Hl Hb. unfold Reader_iter. simpl. rewrite !fmap_app. split.
  - rewrite (record_grouper_app n), map_app by (rewrite length_fmap; exact Hl).
    reflexivity.
  - rewrite (record_grouper_app m), map_app by (rewrite length_fmap; exact Hb).
    reflexivity.
Qed.

(** ** Lists of tags *)

Section MoreSequenceFacts.
Context {A : Type} `{EqDecision A}.

Lemma split_app_sep_any (sep : A) (a b : list A) :
  split sep (a ++ sep :: b) = split sep a ++ split sep b.
Proof.
  induction a as [|c a IH]; simpl.
  - destruct (decide (sep = sep)); [reflexivity|congruence].
  - destruct (decide (c = sep)); rewrite IH; [reflexivity|].
    pose proof (split_nonempty sep a) as Hne.
    destruct (split sep a); [congruence|reflexivity].
Qed.

Lemma split_join (sep : A) (ts : list (list A)) (b : list A) :
  ts <> [] -> Forall (fun t => sep ∉ t) ts ->
  split sep (join [sep] ts ++ sep :: b) = ts ++ split sep b.
Proof.
  induction ts as [|t ts IH]; [congruence|]. intros _ Hts.
  apply Forall_cons in Hts as [Ht Hts].
  destruct ts as [|t' ts].
  - simpl. apply split_app_sep, Ht.
  - replace (join [sep] (t :: t' :: ts) ++ sep :: b)
      with (t ++ sep :: (join [sep] (t' :: ts) ++ sep :: b)).
    2:{ change (join [sep] (t :: t' :: ts)) with (t ++ [sep] ++ join [sep] (t' :: ts)).
        rewrite <- !app_assoc. reflexivity. }
    rewrite (split_app_sep _ _ _ Ht), IH by (auto; discriminate). reflexivity.
Qed.

Lemma but_last_app {X} (l1 l2 : list X) :
  l2 <> [] -> but_last (l1 ++ l2) = l1 ++ but_last l2.
Proof.
  intros Hne. induction l1 as [|x l1 IH]; [reflexivity|].
  simpl. rewrite but_last_cons, IH; [reflexivity|].
  destruct l1; simpl; [assumption|discriminate].
Qed.

Lemma join_app (sep : list A) (ts1 ts2 : list (list A)) :
  ts1 <> [] -> ts2 <> [] ->
  join sep (ts1 ++ ts2) = join sep ts1 ++ sep ++ join sep ts2.
Proof.
  intros H1 H2. induction ts1 as [|t ts1 IH]; [congruence|].
  destruct ts1 as [|t' ts1].
  - simpl. destruct ts2; [congruence|reflexivity].
  - change (join sep ((t :: t' :: ts1) ++ ts2))
      with (t ++ sep ++ join sep ((t' :: ts1) ++ ts2)).
    rewrite IH by discriminate.
    change (join sep (t :: t' :: ts1)) with (t ++ sep ++ join sep (t' :: ts1)).
    rewrite <- !app_assoc. reflexivity.
Qed.
End MoreSequenceFacts.

Section TagLists.
Context {F : Type} `{PyFloat F}.
Implicit Types (r : record) (k key : str) (v : pyval F) (kv : list (str * pyval F))
  (d : gmap str (pyval F)).

Lemma fold_ins_dict (l : list (str * pyval F)) : forall d0,
  fold_left ins l d0 = list_to_map (reverse l) ∪ d0.
Proof.
  induction l as [|[k v] l IH]; intros d0; simpl.
  - rewrite (left_id_L ∅ (∪)). reflexivity.
  - rewrite IH, reverse_cons, list_to_map_app. simpl.
    unfold ins. simpl.
    rewrite (insert_union_singleton_l d0), (insert_union_singleton_l ∅).
    rewrite (right_id_L ∅ (∪)), (assoc_L (∪)). reflexivity.
Qed.

Lemma str_mktag_ok (k : str) (v : pyval F) :
  sep_free k -> storable Textual v ->
  exists tag, StrRecord._mktag k v = Ok tag /\ (59%N ∉ tag)
    /\ forall rest d0, StrRecord.tags_of (tag :: rest) d0
                       = StrRecord.tags_of rest (<[k := v]> d0).
Proof.
  intros [Hk1 Hk2] Hv.
  destruct (str_mktag_shape k v Hv) as (t & val & conv & Hm & [Ht1 Ht2] & [Hv1 Hv2] & Hc & Hx).
  eexists. split; [exact Hm|].
  change (U ":") with [58%N]. cbn [app]. split.
  - repeat (rewrite not_elem_of_app || rewrite not_elem_of_cons). repeat split; done.
  - intros rest d0. cbn [StrRecord.tags_of].
    rewrite split_three by assumption. rewrite Hc, Hx. reflexivity.
Qed.

Lemma str_mktags_ok (kv : list (str * pyval F)) :
  pairs_ok Textual kv ->
  exists ts, StrRecord.mktags kv = Ok ts /\ length ts = length kv
    /\ Forall (fun t => 59%N ∉ t) ts
    /\ forall rest d0, StrRecord.tags_of (ts ++ rest) d0
                       = StrRecord.tags_of rest (fold_left ins kv d0).
Proof.
  induction 1 as [|[k v] kv [[Hk _] Hv] _ (ts & Hts & Hlen & Hfree & Htags)]; simpl.
  - exists []. repeat split; auto.
  - destruct (str_mktag_ok k v Hk Hv) as (tag & Hm & Htag & Hstep).
    exists (tag :: ts). rewrite Hm, Hts.
    split; [reflexivity|]. split; [simpl; lia|]. split; [constructor; assumption|].
    intros rest d0. change ((tag :: ts) ++ rest) with (tag :: (ts ++ rest)).
    rewrite Hstep, Htags. reflexivity.
Qed.

Lemma bytes_mktag_ok (k : str) (v : pyval F) :
  key_ok Binary k -> storable Binary v ->
  exists tag, BytesRecord._mktag k v = Ok tag /\ (";"%char ∉ tag)
    /\ forall rest d0, BytesRecord.tags_of (tag :: rest) d0
                       = BytesRecord.tags_of rest (<[k := read_back Binary v]> d0).
Proof.
  intros Hk Hv.
  destruct (bytes_mktag_shape k v Hk Hv)
    as (kb & t & vb & conv & Hkb & Hm & [Hk1 Hk2] & [Ht1 Ht2] & [Hv1 Hv2] & Hc & Hx).
  eexists. split; [exact Hm|].
  change (B ":") with [":"%char]. cbn [app]. split.
  - repeat (rewrite not_elem_of_app || rewrite not_elem_of_cons). repeat split; done.
  - intros rest d0. cbn [BytesRecord.tags_of].
    rewrite split_three by assumption.
    rewrite (utf8_decode_encode k kb Hkb). simpl. rewrite Hc, Hx. reflexivity.
Qed.

Lemma bytes_mktags_ok (kv : list (str * pyval F)) :
  pairs_ok Binary kv ->
  exists ts, BytesRecord.mktags kv = Ok ts /\ length ts = length kv
    /\ Forall (fun t => ";"%char ∉ t) ts
    /\ forall rest d0, BytesRecord.tags_of (ts ++ rest) d0
         = BytesRecord.tags_of rest
             (fold_left ins (prod_map id (read_back Binary) <$> kv) d0).
Proof.
  induction 1 as [|[k v] kv [Hk Hv] _ (ts & Hts & Hlen & Hfree & Htags)]; simpl.
  - exists []. repeat split; auto.
  - destruct (bytes_mktag_ok k v Hk Hv) as (tag & Hm & Htag & Hstep).
    exists (tag :: ts). rewrite Hm, Hts.
    split; [reflexivity|]. split; [simpl; lia|]. split; [constructor; assumption|].
    intros rest d0. change ((tag :: ts) ++ rest) with (tag :: (ts ++ rest)).
    rewrite Hstep, Htags. reflexivity.
Qed.

Lemma read_back_textual (kv : list (str * pyval F)) :
  prod_map id (read_back Textual) <$> kv = kv.
Proof.
  induction kv as [|[k v] kv IH]; [reflexivity|].
  rewrite fmap_cons, IH. reflexivity.
Qed.

(** What [get_tags] reads after [set_tags]. *)
Lemma set_tags_get_tags (r : record) (kv : list (str * pyval F))
    (d : gmap str (pyval F)) :
  kv <> [] -> get_tags r = Ok d -> pairs_ok (cls r) kv ->
  exists r', set_tags r kv = Ok r'
    /\ cls r' = cls r
    /\ get_tags r' = Ok (d ∪ tags_dict (cls r) kv).
Proof.
  intros Hne Hd Hkv. unfold get_tags, set_tags, tags_dict in *.
  destruct (cls r) eqn:Hcls.
  - unfold StrRecord.get_tags in Hd.
    destruct (name r) as [n|n] eqn:Hn; [|discriminate].
    destruct (str_mktags_ok kv Hkv) as (ts & Hts & Hlen & Hfree & Htags).
    assert (Hts_ne : ts <> []) by (destruct ts, kv; simpl in *; congruence).
    set (new := U "@" ++ join (U ";") ts ++ U ";" ++ from1 n).
    exists (with_name (FStr new) r).
    split; [unfold StrRecord.set_tags; rewrite Hts, Hn; reflexivity|].
    split; [exact Hcls|].
    change (cls (with_name (FStr new) r)) with (cls r). rewrite Hcls.
    change (StrRecord.get_tags (with_name (FStr new) r))
      with (StrRecord.tags_of (F:=F) (text_segments new) ∅).
    unfold new, text_segments. change (from1 (U "@" ++ ?l)) with l.
    change (U ";") with [59%N]. cbn [app].
    rewrite (split_join _ _ _ Hts_ne Hfree).
    rewrite but_last_app by apply split_nonempty.
    rewrite Htags, str_tags_of_acc. fold (text_segments n) in Hd. unfold text_segments in Hd.
    rewrite Hd. simpl. rewrite fold_ins_dict, (right_id_L ∅ (∪)), read_back_textual.
    reflexivity.
  - unfold BytesRecord.get_tags in Hd.
    destruct (name r) as [n|n] eqn:Hn; [discriminate|].
    destruct (bytes_mktags_ok kv Hkv) as (ts & Hts & Hlen & Hfree & Htags).
    assert (Hts_ne : ts <> []) by (destruct ts, kv; simpl in *; congruence).
    set (new := B "@" ++ join (B ";") ts ++ B ";" ++ from1 n).
    exists (with_name (FBytes new) r).
    split; [unfold BytesRecord.set_tags; rewrite Hts, Hn; reflexivity|].
    split; [exact Hcls|].
    change (cls (with_name (FBytes new) r)) with (cls r). rewrite Hcls.
    change (BytesRecord.get_tags (with_name (FBytes new) r))
      with (BytesRecord.tags_of (F:=F) (bytes_segments new) ∅).
    unfold new, bytes_segments. change (from1 (B "@" ++ ?l)) with l.
    change (B ";") with [";"%char]. cbn [app].
    rewrite (split_join _ _ _ Hts_ne Hfree).
    rewrite but_last_app by apply split_nonempty.
    rewrite Htags, bytes_tags_of_acc. unfold bytes_segments in Hd.
    rewrite Hd. simpl. rewrite fold_ins_dict, (right_id_L ∅ (∪)).
    reflexivity.
Qed.
Lemma get_tag_of_get_tags r d key :
  get_tags r = Ok d -> get_tag r key = Ok (default VNone (d !! key)).
Proof.
  unfold get_tags, get_tag, StrRecord.get_tag, BytesRecord.get_tag.
  destruct (cls r); intros ->; destruct (d !! key); reflexivity.
Qed.

Lemma get_tag_of_get_tags_raise r e key :
  get_tags r = Raise e -> e <> KeyError -> get_tag r key = Raise e.
Proof.
  unfold get_tags, get_tag, StrRecord.get_tag, BytesRecord.get_tag.
  destruct (cls r); intros -> He; destruct e; congruence.
Qed.

Lemma set_tag_singleton r k v : set_tag r k v = set_tags r [(k, v)].
Proof.
  unfold set_tag, set_tags, StrRecord.set_tag, StrRecord.set_tags,
    BytesRecord.set_tag, BytesRecord.set_tags.
  destruct (cls r); simpl.
  - destruct (StrRecord._mktag k v); reflexivity.
  - destruct (BytesRecord._mktag k v); reflexivity.
Qed.

(** X5. Several tags at once.  Take a record whose name decodes and at
    least one pair, every pair with a key and a value that can be written
    and read back: the key without [':'] and [';'] and, for the binary
    variant, with a UTF-8 encoding; the value an integer, or a float whose
    printed form has no [':'] and [';'], is read back by [float()] as the
    same float and, for the binary variant, is ASCII, or a text without
    [':'] and [';'] and, for the binary variant, with a UTF-8 encoding,
    or, for the binary variant only, bytes without [':'] and [';'].  Then
    [set_tags] succeeds; [get_tags] returns the old tags together with the
    new pairs, where an old tag keeps its value and, among the new pairs,
    a later pair replaces an earlier one with the same key.  With distinct
    keys that the name did not carry, [get_tag] returns for each key the
    value of its pair, a text as its UTF-8 bytes from a binary record. *)
Theorem set_tags_then_get_tags r kv d :
  kv <> [] -> get_tags r = Ok d -> pairs_ok (cls r) kv ->
  exists r',
    set_tags r kv = Ok r'
    /\ get_tags r' = Ok (d ∪ tags_dict (cls r) kv)
    /\ (NoDup kv.*1 ->
        forall k v, (k, v) ∈ kv -> d !! k = None ->
                    get_tag r' k = Ok (read_back (cls r) v)).
Proof.
  intros Hne Hd Hkv.
  destruct (set_tags_get_tags r kv d Hne Hd Hkv) as (r' & Hset & Hcls & Hget).
  exists r'. split; [assumption|]. split; [assumption|].
  intros Hnd k v Hin Hfresh.
  rewrite (get_tag_of_get_tags _ _ _ Hget), lookup_union_r by assumption.
  unfold tags_dict.
  rewrite (elem_of_list_to_map_1 _ k (read_back (cls r) v)); [reflexivity| |].
  - rewrite fmap_reverse, <- list_fmap_compose.
    rewrite reverse_Permutation. exact Hnd.
  - apply elem_of_reverse, list_elem_of_fmap. exists (k, v). split; [reflexivity|assumption].
Qed.

(** X6. [set_tag] does not overwrite.  Take a record whose name decodes
    and already carries a tag under the key, and a key and a value that
    can be written and read back, as in X5 (a value of an unsupported
    kind, or with [':'] or [';'] in it, is excluded: [set_tag] raises on
    the one and [get_tags] on the other).  Then [set_tag] succeeds and
    prepends the new tag, but the tags that [get_tags] reads are the same
    as before and [get_tag] returns the older value. *)
Theorem set_tag_older_tag_wins r k v d old :
  get_tags r = Ok d -> d !! k = Some old ->
  key_ok (cls r) k -> storable (cls r) v ->
  exists r', set_tag r k v = Ok r' /\ get_tags r' = Ok d /\ get_tag r' k = Ok old.
Proof.
  intros Hd Hold Hk Hv.
  destruct (set_tags_get_tags r [(k, v)] d) as (r' & Hset & Hcls & Hget);
    [discriminate|assumption|constructor; [split; assumption|constructor]|].
  assert (Hsame : d ∪ tags_dict (cls r) [(k, v)] = d).
  { apply map_eq. intros i. unfold tags_dict. simpl.
    destruct (d !! i) as [x|] eqn:Hi.
    - apply lookup_union_Some_l, Hi.
    - rewrite lookup_union_r by assumption.
      apply lookup_insert_None. split; [apply lookup_empty|]. congruence. }
  rewrite Hsame in Hget.
  exists r'. rewrite set_tag_singleton. split; [assumption|]. split; [assumption|].
  rewrite (get_tag_of_get_tags _ _ _ Hget), Hold. reflexivity.
Qed.

Lemma str_mktags_app kv1 kv2 ts :
  StrRecord.mktags (kv1 ++ kv2) = Ok ts <->
  exists ts1 ts2, StrRecord.mktags kv1 = Ok ts1 /\ StrRecord.mktags kv2 = Ok ts2
                  /\ ts = ts1 ++ ts2.
Proof.
  revert ts. induction kv1 as [|[k v] kv1 IH]; intros ts; simpl.
  - split.
    + intros Hts. exists [], ts. auto.
    + intros (ts1 & ts2 & [= <-] & Hts2 & ->). exact Hts2.
  - destruct (StrRecord._mktag k v) as [t|e]; simpl.
    2:{ split; [discriminate|]. intros (ts1 & ts2 & Hx & _). discriminate. }
    destruct (StrRecord.mktags (kv1 ++ kv2)) as [ts'|e] eqn:Happ; simpl.
    + destruct (proj1 (IH ts') eq_refl) as (ts1 & ts2 & H1 & H2 & ->).
      rewrite H1. simpl. split.
      * intros [= <-]. exists (t :: ts1), ts2. auto.
      * intros (ts1' & ts2' & [= <-] & Hts2 & ->).
        rewrite H2 in Hts2. injection Hts2 as <-. reflexivity.
    + split; [discriminate|]. intros (ts1 & ts2 & H1 & H2 & ->).
      destruct (StrRecord.mktags kv1) as [ts1'|e1]; simpl in H1; [|discriminate].
      assert (Hok : @Raise (list _) e = Ok (ts1' ++ ts2)) by (apply IH; eauto).
      discriminate.
Qed.

Lemma bytes_mktags_app kv1 kv2 ts :
  BytesRecord.mktags (kv1 ++ kv2) = Ok ts <->
  exists ts1 ts2, BytesRecord.mktags kv1 = Ok ts1 /\ BytesRecord.mktags kv2 = Ok ts2
                  /\ ts = ts1 ++ ts2.
Proof.
  revert ts. induction kv1 as [|[k v] kv1 IH]; intros ts; simpl.
  - split.
    + intros Hts. exists [], ts. auto.
    + intros (ts1 & ts2 & [= <-] & Hts2 & ->). exact Hts2.
  - destruct (BytesRecord._mktag k v) as [t|e]; simpl.
    2:{ split; [discriminate|]. intros (ts1 & ts2 & Hx & _). discriminate. }
    destruct (BytesRecord.mktags (kv1 ++ kv2)) as [ts'|e] eqn:Happ; simpl.
    + destruct (proj1 (IH ts') eq_refl) as (ts1 & ts2 & H1 & H2 & ->).
      rewrite H1. simpl. split.
      * intros [= <-]. exists (t :: ts1), ts2. auto.
      * intros (ts1' & ts2' & [= <-] & Hts2 & ->).
        rewrite H2 in Hts2. injection Hts2 as <-. reflexivity.
    + split; [discriminate|]. intros (ts1 & ts2 & H1 & H2 & ->).
      destruct (BytesRecord.mktags kv1) as [ts1'|e1]; simpl in H1; [|discriminate].
      assert (Hok : @Raise (list _) e = Ok (ts1' ++ ts2)) by (apply IH; eauto).
      discriminate.
Qed.

Lemma str_mktags_length kv ts : StrRecord.mktags kv = Ok ts -> length ts = length kv.
Proof.
  revert ts. induction kv as [|[k v] kv IH]; intros ts; simpl.
  - intros [= <-]. reflexivity.
  - destruct (StrRecord._mktag k v); simpl; [|discriminate].
    destruct (StrRecord.mktags kv); simpl; [|discriminate].
    intros [= <-]. simpl. f_equal. auto.
Qed.

Lemma bytes_mktags_length kv ts : BytesRecord.mktags kv = Ok ts -> length ts = length kv.
Proof.
  revert ts. induction kv as [|[k v] kv IH]; intros ts; simpl.
  - intros [= <-]. reflexivity.
  - destruct (BytesRecord._mktag k v); simpl; [|discriminate].
    destruct (BytesRecord.mktags kv); simpl; [|discriminate].
    intros [= <-]. simpl. f_equal. auto.
Qed.

Lemma nonempty_length {X Y} (l : list X) (l' : list Y) :
  length l = length l' -> l' <> [] -> l <> [].
Proof. destruct l, l'; simpl; congruence. Qed.

Lemma str_prepend_twice (ts1 ts2 : list str) (n : field) :
  ts1 <> [] -> ts2 <> [] ->
  StrRecord.prepend (join (U ";") (ts1 ++ ts2)) n
  = StrRecord.prepend (join (U ";") ts1) (FStr (StrRecord.prepend (join (U ";") ts2) n)).
Proof.
  intros H1 H2. rewrite (join_app _ _ _ H1 H2).
  unfold StrRecord.prepend at 1 3.
  change (from1 (U "@" ++ ?l)) with l.
  destruct n; unfold StrRecord.prepend; rewrite <- !app_assoc; reflexivity.
Qed.

Lemma str_set_tags_app r kv1 kv2 r'' :
  kv1 <> [] -> kv2 <> [] ->
  StrRecord.set_tags r (kv1 ++ kv2) = Ok r'' <->
  exists r', StrRecord.set_tags r kv2 = Ok r' /\ StrRecord.set_tags r' kv1 = Ok r''.
Proof.
  intros H1 H2. unfold StrRecord.set_tags. split.
  - intros (ts & Hts & Hset)%bind_Ok.
    apply str_mktags_app in Hts as (ts1 & ts2 & Hts1 & Hts2 & ->).
    pose proof (nonempty_length _ _ (str_mktags_length _ _ Hts1) H1) as Hn1.
    pose proof (nonempty_length _ _ (str_mktags_length _ _ Hts2) H2) as Hn2.
    rewrite Hts2. simpl. eexists. split; [reflexivity|].
    rewrite Hts1. simpl. simpl in Hset. rewrite <- Hset.
    rewrite (str_prepend_twice _ _ _ Hn1 Hn2). reflexivity.
  - intros (r' & (ts2 & Hts2 & Hr')%bind_Ok & (ts1 & Hts1 & Hr'')%bind_Ok).
    pose proof (nonempty_length _ _ (str_mktags_length _ _ Hts1) H1) as Hn1.
    pose proof (nonempty_length _ _ (str_mktags_length _ _ Hts2) H2) as Hn2.
    rewrite (proj2 (str_mktags_app kv1 kv2 (ts1 ++ ts2))) by eauto.
    simpl. simpl in Hr', Hr''. injection Hr' as <-. rewrite <- Hr''.
    rewrite (str_prepend_twice _ _ _ Hn1 Hn2). reflexivity.
Qed.
Lemma bytes_prepend_twice (ts1 ts2 : list bytes) (n : field) :
  ts1 <> [] -> ts2 <> [] ->
  BytesRecord.prepend (join (B ";") (ts1 ++ ts2)) n
  = (new ← BytesRecord.prepend (join (B ";") ts2) n;
     BytesRecord.prepend (join (B ";") ts1) (FBytes new)).
Proof.
  intros H1 H2. rewrite (join_app _ _ _ H1 H2).
  destruct n as [s|b]; [reflexivity|]. simpl.
  change (from1 (B "@" ++ ?l)) with l.
  rewrite <- !app_assoc. reflexivity.
Qed.

Lemma bind_of_Ok {X Y} (a : X) (f : X -> result Y) : Ok a ≫= f = f a.
Proof. reflexivity. Qed.

Lemma bytes_set_tags_app r kv1 kv2 r'' :
  kv1 <> [] -> kv2 <> [] ->
  BytesRecord.set_tags r (kv1 ++ kv2) = Ok r'' <->
  exists r', BytesRecord.set_tags r kv2 = Ok r' /\ BytesRecord.set_tags r' kv1 = Ok r''.
Proof.
  intros H1 H2. unfold BytesRecord.set_tags. split.
  - intros (ts & Hts & Hset)%bind_Ok.
    apply bytes_mktags_app in Hts as (ts1 & ts2 & Hts1 & Hts2 & ->).
    pose proof (nonempty_length _ _ (bytes_mktags_length _ _ Hts1) H1) as Hn1.
    pose proof (nonempty_length _ _ (bytes_mktags_length _ _ Hts2) H2) as Hn2.
    rewrite (bytes_prepend_twice _ _ _ Hn1 Hn2) in Hset.
    apply bind_Ok in Hset as (new & Hnew & Hset).
    apply bind_Ok in Hnew as (new2 & Hnew2 & Hnew).
    rewrite Hts2, bind_of_Ok, Hnew2, bind_of_Ok.
    eexists. split; [reflexivity|].
    rewrite Hts1, bind_of_Ok.
    change (name (with_name (FBytes new2) r)) with (FBytes new2).
    change (name {| cls := cls r; name := FBytes new2; sequence := sequence r;
                    name2 := name2 r; quality := quality r |}) with (FBytes new2).
    rewrite Hnew, bind_of_Ok. exact Hset.
  - intros (r' & (ts2 & Hts2 & Hr')%bind_Ok & (ts1 & Hts1 & Hr'')%bind_Ok).
    pose proof (nonempty_length _ _ (bytes_mktags_length _ _ Hts1) H1) as Hn1.
    pose proof (nonempty_length _ _ (bytes_mktags_length _ _ Hts2) H2) as Hn2.
    rewrite (proj2 (bytes_mktags_app kv1 kv2 (ts1 ++ ts2))) by eauto.
    rewrite bind_of_Ok, (bytes_prepend_twice _ _ _ Hn1 Hn2).
    apply bind_Ok in Hr' as (new2 & Hnew2 & Hr'). injection Hr' as <-.
    rewrite Hnew2, bind_of_Ok.
    apply bind_Ok in Hr'' as (new & Hnew & Hr'').
    change (name {| cls := cls r; name := FBytes new2; sequence := sequence r;
                    name2 := name2 r; quality := quality r |}) with (FBytes new2) in Hnew.
    rewrite Hnew, bind_of_Ok. exact Hr''.
Qed.

(** X8. Tags are prepended: setting the pairs [kv1 ++ kv2] at once gives
    the same record as setting [kv2] first and [kv1] after it, for two
    lists that are not empty; one call succeeds exactly when the two
    calls do. *)
Theorem set_tags_in_two_steps r kv1 kv2 r'' :
  kv1 <> [] -> kv2 <> [] ->
  set_tags r (kv1 ++ kv2) = Ok r'' <->
  exists r', set_tags r kv2 = Ok r' /\ set_tags r' kv1 = Ok r''.
Proof.
  intros H1 H2. unfold set_tags. destruct (cls r) eqn:Hcls.
  - rewrite (str_set_tags_app r kv1 kv2 r'' H1 H2).
    split; intros (r' & Hr' & Hr''); exists r'; (split; [exact Hr'|]);
      assert (Hc : cls r' = Textual)
        by (rewrite <- Hcls; apply (set_tags_frame r kv2 r');
            unfold set_tags; rewrite Hcls; exact Hr');
      rewrite Hc in *; exact Hr''.
  - rewrite (bytes_set_tags_app r kv1 kv2 r'' H1 H2).
    split; intros (r' & Hr' & Hr''); exists r'; (split; [exact Hr'|]);
      assert (Hc : cls r' = Binary)
        by (rewrite <- Hcls; apply (set_tags_frame r kv2 r');
            unfold set_tags; rewrite Hcls; exact Hr');
      rewrite Hc in *; exact Hr''.
Qed.

Lemma last_split_app {A} `{EqDecision A} (sep : A) (a b : list A) :
  last (split sep (a ++ sep :: b)) = last (split sep b).
Proof.
  rewrite split_app_sep_any, last_app.
  pose proof (split_nonempty sep b) as Hne.
  destruct (last (split sep b)) eqn:Hl; [reflexivity|].
  apply last_None in Hl. congruence.
Qed.

(** X9. The untagged name, the part of the name after its last [';'], is
    the same before and after [set_tag] and [set_tags], whatever the keys
    and values are, on a record whose name is of the kind of its
    variant. *)
Theorem set_tags_keeps_untagged_name r k v kv r' :
  own_kind r ->
  set_tag r k v = Ok r' \/ set_tags r kv = Ok r' ->
  untagged (name r') = untagged (name r).
Proof.
  intros Hown Hset.
  assert (Hs : exists kv', set_tags r kv' = Ok r').
  { destruct Hset as [Hs|Hs]; [rewrite set_tag_singleton in Hs|]; eauto. }
  clear Hset. destruct Hs as [kv' Hs].
  unfold own_kind, set_tags in *.
  destruct (cls r), (name r) as [n|n] eqn:Hn; try contradiction.
  - unfold StrRecord.set_tags in Hs.
    apply bind_Ok in Hs as (ts & _ & Hs). rewrite Hn in Hs.
    assert (Hname : name r' = FStr (U "@" ++ join (U ";") ts ++ 59%N :: from1 n))
      by (injection Hs as <-; reflexivity).
    rewrite Hname. unfold untagged. do 2 f_equal.
    change (from1 (U "@" ++ ?l)) with l. apply last_split_app.
  - unfold BytesRecord.set_tags in Hs.
    apply bind_Ok in Hs as (ts & _ & Hs). rewrite Hn in Hs.
    assert (Hname : name r' = FBytes (B "@" ++ join (B ";") ts ++ ";"%char :: from1 n))
      by (injection Hs as <-; reflexivity).
    rewrite Hname. unfold untagged. do 2 f_equal.
    change (from1 (B "@" ++ ?l)) with l. apply last_split_app.
Qed.


(** X11. A name with a malformed tag segment (not three parts, or a type
    other than [i], [Z], [f]) is never decoded, whatever the other
    segments are: [get_tags] raises, and [get_tag] either raises or
    returns [None], never a value. *)
Theorem malformed_name_never_decodes r :
  match cls r, name r with
  | Textual, FStr n => Exists (fun seg => well_formed_text seg = false) (text_segments n)
  | Binary, FBytes n => Exists (fun seg => well_formed_bytes seg = false) (bytes_segments n)
  | _, _ => True
  end ->
  raises (get_tags (F:=F) r)
  /\ forall key, get_tag (F:=F) r key = Ok VNone \/ raises (get_tag (F:=F) r key).
Proof.
  intros Hbad. pose proof (get_tags_malformed_raises r Hbad) as [e He].
  split; [exists e; exact He|]. intros key.
  destruct e;
    try (right; eexists; apply get_tag_of_get_tags_raise; [exact He|discriminate]).
  left. unfold get_tags in He. unfold get_tag, StrRecord.get_tag, BytesRecord.get_tag.
  destruct (cls r); rewrite He; reflexivity.
Qed.
End TagLists.

Section Unsupported.
Context {F : Type} `{PyFloat F}.
Implicit Types (r : record) (k key : str) (v : pyval F) (kv : list (str * pyval F)).

Lemma str_mktags_unsupported kv k v :
  supported Textual v = false -> (k, v) ∈ kv -> raises (StrRecord.mktags kv).
Proof.
  intros Hv. induction kv as [|[k' v'] kv IH]; intros Hin; [inversion Hin|].
  apply elem_of_cons in Hin as [[= <- <-]|Hin]; simpl.
  - destruct v; try discriminate Hv; eexists; reflexivity.
  - apply raises_bind. intros t. destruct (IH Hin) as [e ->]. eexists; reflexivity.
Qed.

Lemma bytes_mktags_unsupported kv k v :
  supported Binary v = false -> (k, v) ∈ kv -> raises (BytesRecord.mktags kv).
Proof.
  intros Hv. induction kv as [|[k' v'] kv IH]; intros Hin; [inversion Hin|].
  apply elem_of_cons in Hin as [[= <- <-]|Hin]; simpl.
  - destruct v; try discriminate Hv; eexists; reflexivity.
  - apply raises_bind. intros t. destruct (IH Hin) as [e ->]. eexists; reflexivity.
Qed.

(** X12. A value that is neither text, bytes, integer nor float, and for
    the textual variant bytes as well, is refused: [set_tag] raises, and
    [set_tags] raises as soon as one pair of the list has such a value,
    whatever the other pairs are. *)
Theorem set_tags_refuses_unsupported_value r k v kv :
  supported (cls r) v = false -> (k, v) ∈ kv ->
  raises (set_tag r k v) /\ raises (set_tags r kv).
Proof.
  intros Hv Hin.
  assert (Hall : forall kv', (k, v) ∈ kv' -> raises (set_tags r kv')).
  { intros kv' Hin'. unfold set_tags, StrRecord.set_tags, BytesRecord.set_tags.
    destruct (cls r).
    - destruct (str_mktags_unsupported kv' k v Hv Hin') as [e ->]. eexists; reflexivity.
    - destruct (bytes_mktags_unsupported kv' k v Hv Hin') as [e ->]. eexists; reflexivity. }
  split; [|apply Hall, Hin].
  rewrite set_tag_singleton. apply Hall. left.
Qed.
End Unsupported.

(** ** Estimation, average quality and the tag generator *)

(** *** histogram *)

Lemma runs_counts (l : list Z) :
  sum (map snd (runs l)) = Z.of_nat (length l)
  /\ Forall (fun p => 0 < p.2) (runs l).
Proof.
  induction l as [|x l [IHs IHp]]; simpl; [split; [reflexivity|constructor]|].
  destruct (runs l) as [|[y n] rs].
  - simpl in *. split; [unfold sum in *; simpl in *; lia|repeat constructor].
  - apply Forall_cons in IHp as [Hn Hrs]. simpl in Hn.
    destruct (x =? y); unfold sum in *; simpl in *.
    + split; [lia|constructor; simpl; [lia|assumption]].
    + split; [lia|constructor; simpl; [lia|constructor; simpl; assumption]].
Qed.

Lemma np_unique_counts (data : list Z) :
  sum (np_unique data).2 = Z.of_nat (length data)
  /\ Forall (fun n => 0 < n) (np_unique data).2
  /\ length (np_unique data).1 = length (np_unique data).2.
Proof.
  unfold np_unique. simpl. destruct (runs_counts (sort data)) as [Hs Hp].
  split; [rewrite Hs; f_equal; apply Permutation_length, sort_perm|].
  split; [apply Forall_fmap; exact Hp|]. rewrite !length_map. reflexivity.
Qed.

(** X13. The counts of the histogram of [estimate_sequence_length] add up
    to the number of records sampled, which is the number of records of
    the reader or 10000, whichever is less; every count is positive and
    there is one count for each value. *)
Theorem histogram_counts_the_sample (empty : list Z) (rd : Reader) :
  length empty = sample_size ->
  let h := histogram (estimate_sequence_length empty rd).1 in
  sum h.2 = Z.of_nat (Nat.min (length (Reader_iter rd)) sample_size)
  /\ sum h.2 <= 10000
  /\ Forall (fun n => 0 < n) h.2
  /\ length h.1 = length h.2.
Proof.
  intros Hlen h. unfold h.
  rewrite (estimate_sequence_length_eq empty rd Hlen).
  set (data := map seq_length (take sample_size (Reader_iter rd))).
  change (histogram _) with (np_unique data).
  destruct (np_unique_counts data) as (Hs & Hp & Hl).
  unfold data in Hs at 2. rewrite length_map, length_take in Hs.
  assert (Z.of_nat sample_size = 10000) by reflexivity.
  split; [rewrite Hs; lia|]. split; [rewrite Hs; lia|]. split; assumption.
Qed.

(** *** uniform reads *)








(** *** average quality *)

Lemma sum_bounds (lo hi : Z) (a : list Z) :
  Forall (fun x => lo <= x <= hi) a ->
  lo * Z.of_nat (length a) <= sum a <= hi * Z.of_nat (length a).
Proof.
  induction 1 as [|x a Hx _ IH]; [unfold sum; simpl; lia|].
  change (sum (x :: a)) with (x + sum a). simpl length. lia.
Qed.

Lemma quot_between (lo hi s n : Z) :
  0 < n -> lo * n <= s <= hi * n -> lo <= Z.quot s n <= hi.
Proof.
  intros Hn Hs.
  pose proof (Z.quot_rem' s n) as Hqr.
  destruct (Z.le_gt_cases 0 s) as [Hpos|Hneg].
  - pose proof (Z.rem_bound_pos s n Hpos Hn). nia.
  - pose proof (Z.rem_bound_pos_neg s n Hn ltac:(lia)). nia.
Qed.

Lemma int8_range (a : ascii) : -128 <= int8 a <= 127.
Proof.
  unfold int8. pose proof (N_ascii_bounded a) as Hb. unfold code.
  destruct (Z.ltb_spec (Z.of_N (N_of_ascii a)) 128); lia.
Qed.

(** X15. The average quality lies between the least and the greatest
    score: when the bytes read are all between [lo] and [hi], the result
    is between [lo - 33] and [hi - 33]; it is always between -161 and
    94. *)
Theorem average_quality_between (r : record) (data : bytes) (lo hi : Z) :
  quality_bytes r = Ok data ->
  0 < record_len r <= Z.of_nat (length data) ->
  Forall (fun a => lo <= int8 a <= hi) (take (Z.to_nat (record_len r)) data) ->
  exists q, average_quality r = Ok q
            /\ lo - 33 <= q <= hi - 33
            /\ -161 <= q <= 94.
Proof.
  intros Hq Hlen Hall. rewrite (average_quality_eq r data Hq Hlen).
  eexists. split; [reflexivity|].
  set (a := map int8 (take (Z.to_nat (record_len r)) data)).
  assert (Hn : Z.of_nat (length a) = record_len r)
    by (unfold a; rewrite length_map, length_take; lia).
  assert (H1 : lo <= Z.quot (sum a) (record_len r) <= hi).
  { apply quot_between; [lia|]. rewrite <- Hn. apply sum_bounds.
    unfold a. apply Forall_fmap. exact Hall. }
  assert (H2 : -128 <= Z.quot (sum a) (record_len r) <= 127).
  { apply quot_between; [lia|]. rewrite <- Hn. apply sum_bounds.
    unfold a. apply Forall_fmap, Forall_forall. intros x _. apply int8_range. }
  lia.
Qed.

(** X16. With fewer quality bytes than the sequence is long,
    [average_quality] raises a value error, in both variants. *)
Theorem average_quality_of_short_quality (r : record) (data : bytes) :
  quality_bytes r = Ok data ->
  Z.of_nat (length data) < record_len r ->
  average_quality r = Raise ValueError.
Proof.
  intros Hq Hlt.
  assert (Hrun : forall d : result bytes, d = Ok data ->
    (d ≫= fun data => np_int8 data (record_len r) ≫= fun a =>
       np_mean_int a ≫= fun m => Ok (m - 33)) = Raise ValueError).
  { intros d ->. simpl. unfold np_int8.
    destruct (Z.ltb_spec (Z.of_nat (length data)) (record_len r)); [reflexivity|lia]. }
  unfold average_quality, StrRecord.average_quality, BytesRecord.average_quality.
  unfold quality_bytes in Hq.
  destruct (cls r), (quality r); try discriminate Hq; apply Hrun; exact Hq.
Qed.

(** *** the tag generator *)

Lemma py_slice_length_nonneg {X} (start stop : Z) (l : list X) :
  0 <= start -> 0 <= stop ->
  Z.of_nat (length (py_slice start stop l))
  = Z.max 0 (Z.min stop (Z.of_nat (length l)) - Z.min start (Z.of_nat (length l))).
Proof.
  intros H1 H2. unfold py_slice, clamp.
  destruct (Z.ltb_spec start 0); [lia|]. destruct (Z.ltb_spec stop 0); [lia|].
  destruct (Z.ltb_spec (Z.min start (Z.of_nat (length l)))
                       (Z.min stop (Z.of_nat (length l)))).
  - rewrite length_take, length_drop. lia.
  - simpl. lia.
Qed.

(** X17. For bounds that are not negative, [extract_tag] returns the two
    tuples of the descriptor, with type code [Z], whose values are as long
    as the part of the window [start, end) that lies in the field: never
    longer than [end - start], shorter or empty when the field ends
    before [end]. *)
Theorem extract_tag_lengths (r : record) (tag : Tag) :
  0 <= start tag -> 0 <= end_ tag ->
  let window x := Z.max 0 (Z.min (end_ tag) (len x) - Z.min (start tag) (len x)) in
  let '((sname, s, scode), (qname, q, qcode)) := extract_tag r tag in
  len s = window (sequence r) /\ len q = window (quality r)
  /\ len s <= Z.max 0 (end_ tag - start tag)
  /\ len q <= Z.max 0 (end_ tag - start tag)
  /\ sname = sequence_tag tag /\ qname = quality_tag tag
  /\ scode = U "Z" /\ qcode = U "Z".
Proof.
  intros H1 H2 window. unfold extract_tag.
  assert (Hlen : forall x, len (slice (start tag) (end_ tag) x) = window x).
  { intros [s|b]; simpl; apply py_slice_length_nonneg; assumption. }
  rewrite !Hlen. unfold window.
  assert (Hnn : forall x, 0 <= len x) by (intros [s|b]; simpl; lia).
  pose proof (Hnn (sequence r)). pose proof (Hnn (quality r)).
  repeat split; try reflexivity; lia.
Qed.

Lemma record_grouper_length {A} (l : list A) :
  length (record_grouper l) = (length l / 4)%nat.
Proof.
  pose proof (Nat.div_mod_eq (length l) 4) as Hd.
  pose proof (Nat.mod_upper_bound (length l) 4 ltac:(lia)) as Hm.
  destruct (record_grouper_spec (length l / 4) (length l mod 4) l Hd Hm) as [Hn _].
  exact Hn.
Qed.

(** X18. The tag generator yields one list for each complete group of
    four lines, and each list has two tuples for each descriptor, all with
    type code [Z]. *)
Theorem tag_generator_shape (g : TagGenerator) :
  length (TagGenerator_iter g) = (length (lines (reader g)) / 4)%nat
  /\ Forall (fun l => length l = (2 * length (tags g))%nat
                      /\ Forall (fun t => t.2 = U "Z") l)
            (TagGenerator_iter g).
Proof.
  unfold TagGenerator_iter, Reader_iter. split.
  - rewrite !length_map. apply record_grouper_length.
  - apply Forall_fmap, Forall_forall. intros r _. simpl.
    rewrite record_tags_flat. induction (tags g) as [|t ts [IHl IHz]]; simpl.
    + split; [reflexivity|constructor].
    + split; [lia|]. repeat constructor. exact IHz.
Qed.

(** ** The further properties on the sample data *)

(** Membership in a given text is decided by evaluation. *)
Ltac no_sep := apply (bool_decide_unpack _); vm_compute; exact I.

Lemma mixed_record_is_not_rendered_witness :
  __bytes__ mixed_record = Raise TypeError /\ __str__ mixed_record = Raise TypeError.
Proof.
  apply (mixed_record_is_not_rendered mixed_record).
  - apply Exists_cons_hd. reflexivity.
  - apply Exists_cons_tl, Exists_cons_hd. reflexivity.
Defined.

Lemma reader_then_str_gives_text_back_witness :
  let ls := [U "@read1"; U "ACGT"; U "+"; U "IIII"; U "@read2"; U "AC"] in
  exists ss,
    Forall2 (fun r s => __str__ r = Ok s) (Reader_iter (TextReader ls)) ss
    /\ concat ss = concat (take (4 * 1) ls).
Proof.
  intros ls. apply (reader_then_str_gives_text_back ls 1 2); [reflexivity|lia].
Defined.

Lemma reader_of_two_sources_witness :
  let four := [B "@read1"; B "ACGT"; B "+"; B "IIII"] in
  Reader_iter (TextReader (take 4 six_lines ++ six_lines))
  = Reader_iter (TextReader (take 4 six_lines)) ++ Reader_iter (TextReader six_lines)
  /\ Reader_iter (BytesReader (four ++ four))
     = Reader_iter (BytesReader four) ++ Reader_iter (BytesReader four).
Proof.
  intros four.
  apply (reader_of_two_sources (take 4 six_lines) six_lines four four 1 1); reflexivity.
Defined.

Lemma two_pairs_ok : pairs_ok Binary two_pairs.
Proof.
  repeat constructor; simpl; try no_sep; reflexivity.
Defined.

Lemma set_tags_then_get_tags_witness :
  exists r',
    set_tags sample_bytes_record two_pairs = Ok r'
    /\ get_tags r' = Ok (∅ ∪ tags_dict Binary two_pairs)
    /\ (NoDup two_pairs.*1 ->
        forall k v, (k, v) ∈ two_pairs -> (∅ : gmap str value) !! k = None ->
                    get_tag r' k = Ok (read_back Binary v)).
Proof.
  apply (set_tags_then_get_tags sample_bytes_record two_pairs ∅).
  - discriminate.
  - reflexivity.
  - exact two_pairs_ok.
Defined.

Lemma set_tag_older_tag_wins_witness :
  exists r',
    set_tag tagged_text_record (U "k") (VInt 2 : value) = Ok r'
    /\ get_tags r' = Ok ({[U "k" := VInt 1]} : gmap str value)
    /\ get_tag r' (U "k") = Ok (VInt 1 : value).
Proof.
  apply (set_tag_older_tag_wins tagged_text_record (U "k") (VInt 2 : value)
           {[U "k" := VInt 1]} (VInt 1)).
  - reflexivity.
  - reflexivity.
  - split; [split; no_sep | exact I].
  - exact I.
Defined.


Lemma set_tags_in_two_steps_witness :
  let kv1 : list (str * value) := [(U "a", VInt 1)] in
  let kv2 : list (str * value) := [(U "b", VInt 2)] in
  let r'' := with_name (FStr (U "@a:i:1;b:i:2;read1")) sample_text_record in
  set_tags sample_text_record (kv1 ++ kv2) = Ok r'' <->
  exists r', set_tags sample_text_record kv2 = Ok r' /\ set_tags r' kv1 = Ok r''.
Proof.
  intros kv1 kv2 r''.
  apply (set_tags_in_two_steps sample_text_record kv1 kv2 r''); discriminate.
Defined.

Lemma set_tags_keeps_untagged_name_witness :
  let r' := with_name (FStr (U "@k:i:1;read1")) sample_text_record in
  untagged (name r') = untagged (name sample_text_record).
Proof.
  intros r'.
  apply (set_tags_keeps_untagged_name sample_text_record (U "k") (VInt 1 : value) [] r').
  - exact I.
  - left. reflexivity.
Defined.


Lemma malformed_name_never_decodes_witness :
  raises (get_tags (F:=Z) malformed_record)
  /\ forall key, get_tag (F:=Z) malformed_record key = Ok VNone
                 \/ raises (get_tag (F:=Z) malformed_record key).
Proof.
  apply (malformed_name_never_decodes malformed_record).
  simpl. apply Exists_cons_hd. reflexivity.
Defined.

Lemma set_tags_refuses_unsupported_value_witness :
  raises (set_tag sample_text_record (U "k") (VNone : value))
  /\ raises (set_tags sample_text_record [(U "a", VInt 1); (U "k", (VNone : value))]).
Proof.
  apply (set_tags_refuses_unsupported_value sample_text_record (U "k") VNone).
  - reflexivity.
  - right. left.
Defined.

Lemma histogram_counts_the_sample_witness :
  let h := histogram (estimate_sequence_length (replicate sample_size 0) three_reads).1 in
  sum h.2 = Z.of_nat (Nat.min (length (Reader_iter three_reads)) sample_size)
  /\ sum h.2 <= 10000
  /\ Forall (fun n => 0 < n) h.2
  /\ length h.1 = length h.2.
Proof.
  apply (histogram_counts_the_sample (replicate sample_size 0) three_reads).
  apply length_replicate.
Defined.


Lemma average_quality_between_witness :
  exists q, average_quality sample_bytes_record = Ok q
            /\ 73 - 33 <= q <= 73 - 33
            /\ -161 <= q <= 94.
Proof.
  apply (average_quality_between sample_bytes_record (B "IIII") 73 73).
  - reflexivity.
  - vm_compute. split; [reflexivity | discriminate].
  - vm_compute. repeat constructor; discriminate.
Defined.

Lemma average_quality_of_short_quality_witness :
  average_quality short_quality_record = Raise ValueError.
Proof.
  apply (average_quality_of_short_quality short_quality_record (B "II")); reflexivity.
Defined.

Lemma extract_tag_lengths_witness :
  let r := sample_text_record in
  let tag := sample_tag in
  let window x := Z.max 0 (Z.min (end_ tag) (len x) - Z.min (start tag) (len x)) in
  let '((sname, s, scode), (qname, q, qcode)) := extract_tag r tag in
  len s = window (sequence r) /\ len q = window (quality r)
  /\ len s <= Z.max 0 (end_ tag - start tag)
  /\ len q <= Z.max 0 (end_ tag - start tag)
  /\ sname = sequence_tag tag /\ qname = quality_tag tag
  /\ scode = U "Z" /\ qcode = U "Z".
Proof.
  apply (extract_tag_lengths sample_text_record sample_tag); discriminate.
Defined.
